(** * RFFE protocol decoder ([rffe/pd.py]): model and verified properties

    The decoder is a Python object whose attributes are mutated in place by
    [decode] and its helpers, and which pulls its input through the host's
    [wait] primitive.  The model keeps that shape:

    - the object is the record [Decoder], one field per attribute;
    - the methods are computations in a small monad [M] that threads the
      object and the remaining answers of the sample source;
    - [wait] is answered by the sample source: each answer carries the
      match mask, the sample number and the two pin levels.  When the
      source has no answer left the host ends the decoder ([Eof]);
    - annotations handed to [put] are appended to the field [sink]. *)

From Stdlib Require Import String ZArith List Bool Lia.
Import ListNotations.
Local Open Scope string_scope.
Local Open Scope list_scope.
Local Open Scope Z_scope.

(** ** Data model *)

(** Keys of the [proto] table. *)
Inductive Proto : Type :=
  | K_SSC | K_SA | K_ERW | K_ERR | K_ERWL | K_ERRL | K_RW | K_RR | K_R0W
  | K_BC | K_P | K_ADDRESS | K_BP | K_DATA | K_CMD_WARNINGS | K_BIC
  | K_SSC_WARNINGS | K_IJE.

(** [proto[cmd]] is [[index, long, short]]. *)
Definition proto (cmd : Proto) : Z * (string * string) :=
  match cmd with
  | K_SSC          => (0,  ("Sequence Start Condition", "SSC"))
  | K_SA           => (1,  ("Slave Address", "SA"))
  | K_ERW          => (2,  ("Extended Register Write", "ERW"))
  | K_ERR          => (3,  ("Extended Register Read", "ERR"))
  | K_ERWL         => (4,  ("Extended Register Write Long", "ERWL"))
  | K_ERRL         => (5,  ("Extended Register Read Long", "ERRL"))
  | K_RW           => (6,  ("Register Write", "RW"))
  | K_RR           => (7,  ("Register Read", "RR"))
  | K_R0W          => (8,  ("Register 0 Write", "R0W"))
  | K_BC           => (9,  ("Byte", "BC"))
  | K_P            => (10, ("Parity", "P"))
  | K_ADDRESS      => (11, ("Address", "A"))
  | K_BP           => (12, ("Bus Pack", "BP"))
  | K_DATA         => (13, ("Data ", "DATA"))
  | K_CMD_WARNINGS => (14, ("Command Warnings", "CMD_WARN"))
  | K_BIC          => (15, ("Bus Idle Condition ", "BIC"))
  | K_SSC_WARNINGS => (16, ("SSC Warnings", "SCC_WARN"))
  | K_IJE          => (17, ("Illegal Jump Edge", "IJE_WAEN"))
  end.

(** [proto[cmd][0]], [proto[cmd][1]], [proto[cmd][2]]. *)
Definition proto_0 (cmd : Proto) : Z := fst (proto cmd).
Definition proto_1 (cmd : Proto) : string := fst (snd (proto cmd)).
Definition proto_2 (cmd : Proto) : string := snd (snd (proto cmd)).

(** Equality of two keys, as [==] on the key strings. *)
Definition Proto_eqb (a b : Proto) : bool :=
  match a, b with
  | K_SSC, K_SSC | K_SA, K_SA | K_ERW, K_ERW | K_ERR, K_ERR
  | K_ERWL, K_ERWL | K_ERRL, K_ERRL | K_RW, K_RW | K_RR, K_RR
  | K_R0W, K_R0W | K_BC, K_BC | K_P, K_P | K_ADDRESS, K_ADDRESS
  | K_BP, K_BP | K_DATA, K_DATA | K_CMD_WARNINGS, K_CMD_WARNINGS
  | K_BIC, K_BIC | K_SSC_WARNINGS, K_SSC_WARNINGS | K_IJE, K_IJE => true
  | _, _ => false
  end.

(** The texts of an annotation.  The two format strings of [handle] are kept
    symbolic: [Fmt name key d] stands for ['%s[%d:0]: %02X' % (name, key, d)]
    and [Hex d] for ['%02X' % d]. *)
Inductive Label : Type :=
  | Lit (text : string)
  | Fmt (name : string) (key d : Z)
  | Hex (d : Z).

(** [proto[cmd][1:]] *)
Definition proto_texts (cmd : Proto) : list Label :=
  [Lit (proto_1 cmd); Lit (proto_2 cmd)].

(** One call [self.put(ss, es, self.out_ann, [index, texts])]. *)
Record Annotation : Type := mkAnnotation {
  ann_ss : Z;
  ann_es : Z;
  ann_index : Z;
  ann_texts : list Label
}.

(** Values of [self.state]; ['NULL'] is the state name given to [handle] by
    the parity branch. *)
Inductive StateName : Type :=
  | FIND_SSC | FIND_SLAVE_ADDRESS | FIND_COMMAND | FIND_BTEY_COUNT
  | FIND_ADDRESS | FIND_DATA | FIND_PARITY | FIND_BUS_PARK | STATE_NULL.

(** Values of [self.cmdkey]: ['NULL'] or a key of [proto]. *)
Inductive CmdKey : Type :=
  | NULL
  | Key (cmd : Proto).

Definition CmdKey_eqb (k : CmdKey) (cmd : Proto) : bool :=
  match k with
  | NULL => false
  | Key c => Proto_eqb c cmd
  end.

Definition StateName_eqb (a b : StateName) : bool :=
  match a, b with
  | FIND_SSC, FIND_SSC | FIND_SLAVE_ADDRESS, FIND_SLAVE_ADDRESS
  | FIND_COMMAND, FIND_COMMAND | FIND_BTEY_COUNT, FIND_BTEY_COUNT
  | FIND_ADDRESS, FIND_ADDRESS | FIND_DATA, FIND_DATA
  | FIND_PARITY, FIND_PARITY | FIND_BUS_PARK, FIND_BUS_PARK
  | STATE_NULL, STATE_NULL => true
  | _, _ => false
  end.

(** The [address_format] option. *)
Inductive AddressFormat : Type := shifted | unshifted.

(** The decoder object.  [DATAss] is first assigned inside [handle] and
    [handle_CMD], so it may be absent; [matched] and [samplenum] belong to
    the host and are refreshed by every [wait]. *)
Record Decoder : Type := mkDecoder {
  address_format : AddressFormat;
  samplerate : option Z;
  ss : Z;
  es : Z;
  bitcount : Z;
  databyte : Z;
  state : StateName;
  extended : Z;
  cmdkey : CmdKey;
  BC : Z;
  Pcount : Z;
  BPcount : Z;
  ADDcount : Z;
  BPss : Z;
  SSCs : Z;
  Pes : Z;
  DATAss : option Z;
  matched : Z;
  samplenum : Z;
  sink : list Annotation
}.

Definition set_ss (v : Z) (d : Decoder) : Decoder :=
  mkDecoder (address_format d) (samplerate d) v (es d) (bitcount d)
    (databyte d) (state d) (extended d) (cmdkey d) (BC d) (Pcount d)
    (BPcount d) (ADDcount d) (BPss d) (SSCs d) (Pes d) (DATAss d)
    (matched d) (samplenum d) (sink d).

Definition set_es (v : Z) (d : Decoder) : Decoder :=
  mkDecoder (address_format d) (samplerate d) (ss d) v (bitcount d)
    (databyte d) (state d) (extended d) (cmdkey d) (BC d) (Pcount d)
    (BPcount d) (ADDcount d) (BPss d) (SSCs d) (Pes d) (DATAss d)
    (matched d) (samplenum d) (sink d).

Definition set_bitcount (v : Z) (d : Decoder) : Decoder :=
  mkDecoder (address_format d) (samplerate d) (ss d) (es d) v (databyte d)
    (state d) (extended d) (cmdkey d) (BC d) (Pcount d) (BPcount d)
    (ADDcount d) (BPss d) (SSCs d) (Pes d) (DATAss d) (matched d)
    (samplenum d) (sink d).

Definition set_databyte (v : Z) (d : Decoder) : Decoder :=
  mkDecoder (address_format d) (samplerate d) (ss d) (es d) (bitcount d) v
    (state d) (extended d) (cmdkey d) (BC d) (Pcount d) (BPcount d)
    (ADDcount d) (BPss d) (SSCs d) (Pes d) (DATAss d) (matched d)
    (samplenum d) (sink d).

Definition set_state (v : StateName) (d : Decoder) : Decoder :=
  mkDecoder (address_format d) (samplerate d) (ss d) (es d) (bitcount d)
    (databyte d) v (extended d) (cmdkey d) (BC d) (Pcount d) (BPcount d)
    (ADDcount d) (BPss d) (SSCs d) (Pes d) (DATAss d) (matched d)
    (samplenum d) (sink d).

Definition set_extended (v : Z) (d : Decoder) : Decoder :=
  mkDecoder (address_format d) (samplerate d) (ss d) (es d) (bitcount d)
    (databyte d) (state d) v (cmdkey d) (BC d) (Pcount d) (BPcount d)
    (ADDcount d) (BPss d) (SSCs d) (Pes d) (DATAss d) (matched d)
    (samplenum d) (sink d).

Definition set_cmdkey (v : CmdKey) (d : Decoder) : Decoder :=
  mkDecoder (address_format d) (samplerate d) (ss d) (es d) (bitcount d)
    (databyte d) (state d) (extended d) v (BC d) (Pcount d) (BPcount d)
    (ADDcount d) (BPss d) (SSCs d) (Pes d) (DATAss d) (matched d)
    (samplenum d) (sink d).

Definition set_BC (v : Z) (d : Decoder) : Decoder :=
  mkDecoder (address_format d) (samplerate d) (ss d) (es d) (bitcount d)
    (databyte d) (state d) (extended d) (cmdkey d) v (Pcount d) (BPcount d)
    (ADDcount d) (BPss d) (SSCs d) (Pes d) (DATAss d) (matched d)
    (samplenum d) (sink d).

Definition set_Pcount (v : Z) (d : Decoder) : Decoder :=
  mkDecoder (address_format d) (samplerate d) (ss d) (es d) (bitcount d)
    (databyte d) (state d) (extended d) (cmdkey d) (BC d) v (BPcount d)
    (ADDcount d) (BPss d) (SSCs d) (Pes d) (DATAss d) (matched d)
    (samplenum d) (sink d).

Definition set_BPcount (v : Z) (d : Decoder) : Decoder :=
  mkDecoder (address_format d) (samplerate d) (ss d) (es d) (bitcount d)
    (databyte d) (state d) (extended d) (cmdkey d) (BC d) (Pcount d) v
    (ADDcount d) (BPss d) (SSCs d) (Pes d) (DATAss d) (matched d)
    (samplenum d) (sink d).

Definition set_ADDcount (v : Z) (d : Decoder) : Decoder :=
  mkDecoder (address_format d) (samplerate d) (ss d) (es d) (bitcount d)
    (databyte d) (state d) (extended d) (cmdkey d) (BC d) (Pcount d)
    (BPcount d) v (BPss d) (SSCs d) (Pes d) (DATAss d) (matched d)
    (samplenum d) (sink d).

Definition set_BPss (v : Z) (d : Decoder) : Decoder :=
  mkDecoder (address_format d) (samplerate d) (ss d) (es d) (bitcount d)
    (databyte d) (state d) (extended d) (cmdkey d) (BC d) (Pcount d)
    (BPcount d) (ADDcount d) v (SSCs d) (Pes d) (DATAss d) (matched d)
    (samplenum d) (sink d).

Definition set_SSCs (v : Z) (d : Decoder) : Decoder :=
  mkDecoder (address_format d) (samplerate d) (ss d) (es d) (bitcount d)
    (databyte d) (state d) (extended d) (cmdkey d) (BC d) (Pcount d)
    (BPcount d) (ADDcount d) (BPss d) v (Pes d) (DATAss d) (matched d)
    (samplenum d) (sink d).

Definition set_Pes (v : Z) (d : Decoder) : Decoder :=
  mkDecoder (address_format d) (samplerate d) (ss d) (es d) (bitcount d)
    (databyte d) (state d) (extended d) (cmdkey d) (BC d) (Pcount d)
    (BPcount d) (ADDcount d) (BPss d) (SSCs d) v (DATAss d) (matched d)
    (samplenum d) (sink d).

Definition set_DATAss (v : option Z) (d : Decoder) : Decoder :=
  mkDecoder (address_format d) (samplerate d) (ss d) (es d) (bitcount d)
    (databyte d) (state d) (extended d) (cmdkey d) (BC d) (Pcount d)
    (BPcount d) (ADDcount d) (BPss d) (SSCs d) (Pes d) v (matched d)
    (samplenum d) (sink d).

Definition set_matched (v : Z) (d : Decoder) : Decoder :=
  mkDecoder (address_format d) (samplerate d) (ss d) (es d) (bitcount d)
    (databyte d) (state d) (extended d) (cmdkey d) (BC d) (Pcount d)
    (BPcount d) (ADDcount d) (BPss d) (SSCs d) (Pes d) (DATAss d) v
    (samplenum d) (sink d).

Definition set_samplenum (v : Z) (d : Decoder) : Decoder :=
  mkDecoder (address_format d) (samplerate d) (ss d) (es d) (bitcount d)
    (databyte d) (state d) (extended d) (cmdkey d) (BC d) (Pcount d)
    (BPcount d) (ADDcount d) (BPss d) (SSCs d) (Pes d) (DATAss d)
    (matched d) v (sink d).

Definition set_sink (v : list Annotation) (d : Decoder) : Decoder :=
  mkDecoder (address_format d) (samplerate d) (ss d) (es d) (bitcount d)
    (databyte d) (state d) (extended d) (cmdkey d) (BC d) (Pcount d)
    (BPcount d) (ADDcount d) (BPss d) (SSCs d) (Pes d) (DATAss d)
    (matched d) (samplenum d) v.

Definition set_samplerate (v : option Z) (d : Decoder) : Decoder :=
  mkDecoder (address_format d) v (ss d) (es d) (bitcount d) (databyte d)
    (state d) (extended d) (cmdkey d) (BC d) (Pcount d) (BPcount d)
    (ADDcount d) (BPss d) (SSCs d) (Pes d) (DATAss d) (matched d)
    (samplenum d) (sink d).

(** [reset] assigns these fifteen attributes and no other. *)
Definition reset (d : Decoder) : Decoder :=
  mkDecoder (address_format d)
    None (-1) (-1) 0 0 FIND_BUS_PARK (-1) NULL 0 0 0 0 0 0 0
    (DATAss d) (matched d) (samplenum d) (sink d).

(** [__init__]: a fresh object, then [reset]. *)
Definition new_Decoder (fmt : AddressFormat) : Decoder :=
  reset (mkDecoder fmt None 0 0 0 0 STATE_NULL 0 NULL 0 0 0 0 0 0 0
           None 0 0 []).

(** ** Python integers used as conditions *)

Definition truthy (x : Z) : bool := negb (x =? 0).

(** [~x] *)
Definition invert (x : Z) : Z := Z.lnot x.

(** [self.matched & (0b1 << k)] *)
Definition matched_bit (k : Z) (d : Decoder) : bool :=
  truthy (Z.land (matched d) (Z.shiftl 1 k)).

(** ** The sample source *)

(** A term of a wait condition: channel index and requested level or edge. *)
Inductive Edge : Type := lvl_l | lvl_h | edge_r | edge_f | edge_e.
Definition Condition : Type := list (Z * Edge).

(** What the host reports when a [wait] returns: [self.matched],
    [self.samplenum] and the pin tuple [(sclk, sdata)]. *)
Record Answer : Type := mkAnswer {
  ans_matched : Z;
  ans_samplenum : Z;
  ans_sclk : bool;
  ans_sdata : bool
}.

(** ** The monad: decoder object, remaining answers, and three outcomes *)

Inductive result (A : Type) : Type :=
  | Done (a : A) (d : Decoder) (inp : list Answer)
  | Eof (d : Decoder)
  | AttributeError (d : Decoder).

Arguments Done {A} a d inp.
Arguments Eof {A} d.
Arguments AttributeError {A} d.

Definition M (A : Type) : Type := Decoder -> list Answer -> result A.

Definition ret {A} (a : A) : M A := fun d inp => Done a d inp.

Definition bind {A B} (m : M A) (k : A -> M B) : M B :=
  fun d inp =>
    match m d inp with
    | Done a d' inp' => k a d' inp'
    | Eof d' => Eof d'
    | AttributeError d' => AttributeError d'
    end.

Notation "x <- m ;; k" := (bind m (fun x => k))
  (at level 61, m at next level, right associativity).
Notation "m ;; k" := (bind m (fun _ => k))
  (at level 61, right associativity).

Definition gets {A} (f : Decoder -> A) : M A := fun d inp => Done (f d) d inp.
Definition modify (f : Decoder -> Decoder) : M unit :=
  fun d inp => Done tt (f d) inp.
Definition when (b : bool) (m : M unit) : M unit := if b then m else ret tt.

(** Reading an attribute that may not have been assigned yet. *)
Definition attr {A} (f : Decoder -> option A) : M A :=
  fun d inp =>
    match f d with
    | Some a => Done a d inp
    | None => AttributeError d
    end.

(** The host stores the match mask and the sample number on the object. *)
Definition observe (a : Answer) (d : Decoder) : Decoder :=
  set_samplenum (ans_samplenum a) (set_matched (ans_matched a) d).

(** [self.wait(conds)]: the next answer of the source.  The conditions are
    the host's business; the model lets the source answer anything, which
    covers every behaviour of the real host. *)
Definition wait (conds : list Condition) : M (bool * bool) :=
  fun d inp =>
    match inp with
    | [] => Eof d
    | a :: inp' => Done (ans_sclk a, ans_sdata a) (observe a d) inp'
    end.

(** ** Methods of the decoder *)

Definition putx (index : Z) (texts : list Label) (d : Decoder) : Decoder :=
  set_sink (sink d ++ [mkAnnotation (ss d) (es d) index texts]) d.

Definition handle_BP (cmd : Proto) (st : StateName) : M unit :=
  modify (fun d => set_ss (Pes d) d) ;;
  modify (fun d => set_es (samplenum d) d) ;;
  modify (putx (proto_0 cmd) (proto_texts cmd)) ;;
  modify (set_state st).

(** The loop that [handle], [handle_CMD] and [cmdset] each spell out:
    wait for the expected edge (pattern 1), reporting an Illegal Jump Edge
    when pattern 0 is seen first.  Every turn takes at least one answer. *)
Fixpoint wait_edge (conds : list Condition) (d : Decoder) (inp : list Answer)
  {struct inp} : result unit :=
  match inp with
  | [] => Eof d
  | a1 :: inp1 =>
      let d1 := observe a1 d in
      if matched_bit 0 d1 then
        let d2 := set_ss (samplenum d1) d1 in
        match inp1 with
        | [] => Eof d2
        | a2 :: inp2 =>
            let d3 := observe a2 d2 in
            let d4 :=
              if matched_bit 0 d3
              then putx (proto_0 K_IJE) (proto_texts K_IJE)
                     (set_es (samplenum d3) d3)
              else d3 in
            if matched_bit 1 d4 then
              Done tt (putx (proto_0 K_IJE) (proto_texts K_IJE)
                         (set_es (samplenum d4) d4)) inp2
            else if matched_bit 1 d4 then Done tt d4 inp2
            else wait_edge conds d4 inp2
        end
      else if matched_bit 1 d1 then Done tt d1 inp1
      else wait_edge conds d1 inp1
  end.

Definition cond_edge_r : list Condition :=
  [[(0, lvl_l); (1, edge_e)]; [(0, edge_r)]].
Definition cond_edge_h : list Condition :=
  [[(0, lvl_l); (1, edge_e)]; [(0, lvl_h)]].
Definition cond_h : list Condition := [[(0, lvl_h)]].

Definition handle (sclk sdata : bool) (cmd : Proto) (st : StateName)
  (key : Z) : M unit :=
  modify (fun d => set_databyte (Z.shiftl (databyte d) 1) d) ;;
  modify (fun d => set_databyte (Z.lor (databyte d) (Z.b2z sdata)) d) ;;
  b <- gets bitcount ;;
  when (b =? 0) (modify (fun d => set_DATAss (Some (samplenum d)) d)) ;;
  b <- gets bitcount ;;
  if b <? key then
    wait_edge cond_edge_r ;;
    modify (fun d => set_bitcount (bitcount d + 1) d)
  else
    v <- gets databyte ;;
    wait_edge cond_edge_r ;;
    s0 <- attr DATAss ;;
    modify (set_ss s0) ;;
    modify (fun d => set_es (samplenum d) d) ;;
    when (Proto_eqb cmd K_P) (modify (fun d => set_Pes (samplenum d) d)) ;;
    modify (putx (proto_0 cmd)
              [Fmt (proto_1 cmd) key v; Fmt (proto_2 cmd) key v; Hex v]) ;;
    modify (set_bitcount 0) ;;
    modify (set_databyte 0) ;;
    modify (set_state st).

Definition init : M unit :=
  modify (set_cmdkey NULL) ;;
  modify (set_ADDcount 0) ;;
  modify (set_Pcount 0) ;;
  modify (set_BPcount 0) ;;
  modify (set_BC 0) ;;
  modify (set_bitcount 0) ;;
  modify (set_Pes 0) ;;
  st <- gets state ;;
  if StateName_eqb st FIND_COMMAND
  then modify (set_state FIND_BUS_PARK)
  else modify (set_state FIND_SSC).

Definition cmdset (cmd : Proto) (st : StateName) : M unit :=
  wait_edge cond_edge_r ;;
  s0 <- attr DATAss ;;
  modify (set_ss s0) ;;
  modify (fun d => set_es (samplenum d) d) ;;
  modify (putx (proto_0 cmd) (proto_texts cmd)) ;;
  modify (set_state st) ;;
  modify (set_bitcount 0) ;;
  modify (set_extended (-1)) ;;
  modify (set_cmdkey (Key cmd)).

(** [handle_CMD] is a chain of [if self.bitcount == k:] blocks, most of
    which end in [return]; each block below is one of them followed by the
    rest of the method. *)
Definition handle_CMD_tail : M unit :=
  b <- gets bitcount ;;
  when (b <? 4)
    (wait_edge cond_edge_h ;;
     modify (fun d => set_bitcount (bitcount d + 1) d)).

Definition handle_CMD_4 (sdata : bool) : M unit :=
  b <- gets bitcount ;;
  if b =? 4 then
    if sdata then cmdset K_ERRL FIND_BTEY_COUNT
    else cmdset K_ERWL FIND_BTEY_COUNT
  else handle_CMD_tail.

Definition handle_CMD_3 (sdata : bool) : M unit :=
  b <- gets bitcount ;;
  if b =? 3 then
    if truthy (invert (Z.b2z sdata)) then
      e <- gets extended ;;
      if truthy e then cmdset K_ERR FIND_BTEY_COUNT
      else cmdset K_ERW FIND_BTEY_COUNT
    else
      e <- gets extended ;;
      if truthy e then
        modify (fun d => set_es (samplenum d) d) ;;
        modify (putx (proto_0 K_CMD_WARNINGS) (proto_texts K_CMD_WARNINGS)) ;;
        init
      else handle_CMD_4 sdata
  else handle_CMD_4 sdata.

Definition handle_CMD_2 (sdata : bool) : M unit :=
  b <- gets bitcount ;;
  if b =? 2 then
    e <- gets extended ;;
    if truthy (invert e) then
      if sdata then cmdset K_RR FIND_ADDRESS
      else cmdset K_RW FIND_ADDRESS
    else handle_CMD_3 sdata
  else handle_CMD_3 sdata.

Definition handle_CMD_1 (sdata : bool) : M unit :=
  b <- gets bitcount ;;
  when (b =? 1)
    (if sdata then modify (set_extended 0) else modify (set_extended 1)) ;;
  handle_CMD_2 sdata.

Definition handle_CMD (sclk sdata : bool) : M unit :=
  b <- gets bitcount ;;
  if b =? 0 then
    modify (fun d => set_DATAss (Some (samplenum d)) d) ;;
    if sdata then cmdset K_R0W FIND_DATA
    else handle_CMD_1 sdata
  else handle_CMD_1 sdata.

Definition initBP (sclk sdata : bool) (st : StateName) (key : Z) : M unit :=
  handle_BP K_BP st ;;
  modify (set_state st) ;;
  when (truthy key) init.

(** ** The body of [decode]'s [while True] loop, one branch per state *)

Definition put_proto (cmd : Proto) : M unit :=
  modify (putx (proto_0 cmd) (proto_texts cmd)).

(** [self.ss,self.es = self.BPss,self.samplenum], the SSC annotation and
    the move to the slave address. *)
Definition SSC_found : M unit :=
  modify (fun d => set_es (samplenum d) (set_ss (BPss d) d)) ;;
  put_proto K_SSC ;;
  modify (set_state FIND_SLAVE_ADDRESS).

Definition decode_FIND_SSC : M unit :=
  wait [[(0, lvl_h)]; [(0, lvl_l); (1, edge_f)]] ;;
  m0 <- gets (matched_bit 0) ;;
  when m0
    (modify (fun d => set_ss (samplenum d) d) ;;
     modify (fun d => set_es (samplenum d) d) ;;
     put_proto K_SSC_WARNINGS ;;
     modify (set_state FIND_BUS_PARK)) ;;
  m1 <- gets (matched_bit 1) ;;
  when m1
    (wait cond_edge_r ;;
     m0 <- gets (matched_bit 0) ;;
     if m0 then
       modify (fun d => set_ss (samplenum d) d) ;;
       wait cond_edge_r ;;
       m0 <- gets (matched_bit 0) ;;
       when m0
         (modify (fun d => set_es (samplenum d) d) ;; put_proto K_IJE) ;;
       m1 <- gets (matched_bit 1) ;;
       if m1 then
         modify (fun d => set_es (samplenum d) d) ;;
         put_proto K_IJE ;;
         SSC_found                                  (* continue *)
       else
         m1 <- gets (matched_bit 1) ;;
         when m1 SSC_found
     else
       m1 <- gets (matched_bit 1) ;;
       when m1 SSC_found).

Definition decode_FIND_SLAVE_ADDRESS : M unit :=
  p <- wait cond_h ;;
  handle (fst p) (snd p) K_SA FIND_COMMAND 3.

Definition decode_FIND_COMMAND : M unit :=
  p <- wait cond_h ;;
  handle_CMD (fst p) (snd p).

Definition decode_FIND_BTEY_COUNT : M unit :=
  p <- wait cond_h ;;
  k <- gets cmdkey ;;
  if CmdKey_eqb k K_ERW || CmdKey_eqb k K_ERR
  then handle (fst p) (snd p) K_BC FIND_PARITY 3
  else handle (fst p) (snd p) K_BC FIND_PARITY 2.

Definition decode_FIND_ADDRESS : M unit :=
  p <- wait cond_h ;;
  k <- gets cmdkey ;;
  if CmdKey_eqb k K_RW || CmdKey_eqb k K_RR
  then handle (fst p) (snd p) K_ADDRESS FIND_PARITY 4
  else handle (fst p) (snd p) K_ADDRESS FIND_PARITY 7.

Definition decode_FIND_DATA : M unit :=
  p <- wait cond_h ;;
  k <- gets cmdkey ;;
  if CmdKey_eqb k K_R0W
  then handle (fst p) (snd p) K_DATA FIND_PARITY 6
  else if CmdKey_eqb k K_RW || CmdKey_eqb k K_RR
  then handle (fst p) (snd p) K_DATA FIND_PARITY 7
  else
    n <- gets BC ;;
    handle (fst p) (snd p) K_DATA FIND_PARITY (n * 8 - 1).

(** The [if]/[elif] cascade on [self.cmdkey] after the parity bit. *)
Definition parity_dispatch (d : Decoder) : Decoder :=
  let k := cmdkey d in
  if CmdKey_eqb k K_R0W then set_state FIND_BUS_PARK d
  else if CmdKey_eqb k K_ERW then
    if Pcount d =? 1 then set_state FIND_ADDRESS (set_ADDcount 1 d)
    else if Pcount d =? 2 then set_state FIND_DATA d
    else d
  else if CmdKey_eqb k K_ERR then
    if Pcount d =? 1 then set_state FIND_ADDRESS (set_ADDcount 1 d)
    else if Pcount d =? 2 then set_state FIND_BUS_PARK (set_BPcount 1 d)
    else d
  else if CmdKey_eqb k K_ERWL then
    if Pcount d =? 1 then set_state FIND_ADDRESS (set_ADDcount 2 d)
    else if Pcount d =? 2 then set_state FIND_ADDRESS (set_ADDcount 1 d)
    else if Pcount d =? 3 then set_state FIND_DATA d
    else d
  else if CmdKey_eqb k K_ERRL then
    if Pcount d =? 1 then set_state FIND_ADDRESS (set_ADDcount 2 d)
    else if Pcount d =? 2 then set_state FIND_ADDRESS (set_ADDcount 1 d)
    else if Pcount d =? 3 then set_state FIND_BUS_PARK (set_BPcount 1 d)
    else d
  else if CmdKey_eqb k K_RW then
    if Pcount d =? 1 then set_state FIND_DATA d
    else if Pcount d =? 2 then set_state FIND_BUS_PARK (set_BPcount 1 d)
    else d
  else if CmdKey_eqb k K_RR then
    let d1 := set_state FIND_BUS_PARK d in
    set_BPcount (if Pcount d1 =? 1 then 1 else 2) d1
  else d.

Definition decode_FIND_PARITY : M unit :=
  p <- wait cond_h ;;
  modify (fun d => set_Pcount (Pcount d + 1) d) ;;
  handle (fst p) (snd p) K_P STATE_NULL 0 ;;
  modify parity_dispatch.

(** The branch [if self.cmdkey == 'NULL':] of the bus-park state: an idle
    bus, watched for the start of a sequence. *)
Definition idle_bus_park : M unit :=
  wait [[(0, edge_r); (1, lvl_l)]; [(0, lvl_l); (1, edge_r)]] ;;
  m0 <- gets (matched_bit 0) ;;
  if m0 then
    modify (fun d => set_ss (samplenum d) d) ;;
    wait [[(0, edge_r); (1, lvl_l)]; [(0, edge_f); (1, lvl_l)];
          [(0, lvl_l); (1, edge_r)]] ;;
    m0 <- gets (matched_bit 0) ;;
    when m0
      (modify (fun d => set_es (samplenum d) d) ;;
       put_proto K_SSC_WARNINGS ;;
       modify (set_state FIND_BUS_PARK)) ;;
    m1 <- gets (matched_bit 1) ;;
    when m1 (modify (fun d => set_BPss (samplenum d) d)) ;;
    m2 <- gets (matched_bit 2) ;;
    if m2 then
      modify (set_state FIND_SSC)                   (* continue *)
    else
      m1 <- gets (matched_bit 1) ;;
      when m1 (modify (set_state FIND_SSC))
  else
    m1 <- gets (matched_bit 1) ;;
    when m1 (modify (set_state FIND_SSC)).

Definition decode_FIND_BUS_PARK : M unit :=
  p <- wait [[(0, lvl_l); (1, edge_r)]; [(0, lvl_l); (1, lvl_l)]] ;;
  m0 <- gets (matched_bit 0) ;;
  when m0
    (modify (fun d => set_ss (samplenum d) d) ;;
     wait [[(0, lvl_l); (1, edge_e)]; [(0, lvl_l); (1, lvl_l)]] ;;
     m0 <- gets (matched_bit 0) ;;
     when m0
       (modify (fun d => set_es (samplenum d) d) ;; put_proto K_IJE) ;;
     m1 <- gets (matched_bit 1) ;;
     when m1
       (modify (fun d => set_es (samplenum d) d) ;; put_proto K_IJE)) ;;
  m1 <- gets (matched_bit 1) ;;
  when m1
    (modify (fun d => set_BPss (samplenum d) d) ;;
     k <- gets cmdkey ;;
     match k with
     | NULL => idle_bus_park
     | _ =>
         if CmdKey_eqb k K_ERR || CmdKey_eqb k K_ERRL || CmdKey_eqb k K_RR
         then
           n <- gets BPcount ;;
           initBP (fst p) (snd p) FIND_DATA (if n =? 1 then 0 else 1)
         else initBP (fst p) (snd p) FIND_SSC 1
     end).

(** One turn of [while True:]. *)
Definition decode_body : M unit :=
  st <- gets state ;;
  match st with
  | FIND_SSC => decode_FIND_SSC
  | FIND_SLAVE_ADDRESS => decode_FIND_SLAVE_ADDRESS
  | FIND_COMMAND => decode_FIND_COMMAND
  | FIND_BTEY_COUNT => decode_FIND_BTEY_COUNT
  | FIND_ADDRESS => decode_FIND_ADDRESS
  | FIND_DATA => decode_FIND_DATA
  | FIND_PARITY => decode_FIND_PARITY
  | FIND_BUS_PARK => decode_FIND_BUS_PARK
  | STATE_NULL => ret tt
  end.

(** [n] completed turns of the loop. *)
Fixpoint turns (n : nat) : M unit :=
  match n with
  | O => ret tt
  | S n' => decode_body ;; turns n'
  end.

(** How a run of [decode] ends: the source ran dry, an attribute was read
    before it was assigned, or the loop was still turning when the fuel of
    the model ran out. *)
Inductive outcome : Type :=
  | Stopped (d : Decoder)
  | Crashed (d : Decoder)
  | Spinning (d : Decoder).

Fixpoint decode (fuel : nat) (d : Decoder) (inp : list Answer) : outcome :=
  match fuel with
  | O => Spinning d
  | S fuel' =>
      match decode_body d inp with
      | Done _ d' inp' => decode fuel' d' inp'
      | Eof d' => Stopped d'
      | AttributeError d' => Crashed d'
      end
  end.

Definition outcome_decoder (o : outcome) : Decoder :=
  match o with
  | Stopped d | Crashed d | Spinning d => d
  end.

(** * Vocabulary of the properties *)

(** The decoder a computation stopped with, whatever the outcome. *)
Definition result_decoder {A} (r : result A) : Decoder :=
  match r with
  | Done _ d _ => d
  | Eof d => d
  | AttributeError d => d
  end.

Definition has_index (cmd : Proto) (a : Annotation) : Prop :=
  ann_index a = proto_0 cmd.

Definition is_IJE (a : Annotation) : Prop := has_index K_IJE a.

(** The attributes that the edge-waiting loop never assigns. *)
Definition ctx (d : Decoder) :=
  (address_format d, samplerate d, bitcount d, databyte d, state d,
   extended d, cmdkey d, BC d, Pcount d, BPcount d, ADDcount d, BPss d,
   SSCs d, Pes d, DATAss d).

(** [d'] is [d] after some waiting: only [ss], [es], [matched] and
    [samplenum] may differ, and only Illegal-Jump-Edge annotations were
    added. *)
Definition edge_rel (d d' : Decoder) : Prop :=
  ctx d' = ctx d /\ exists l, sink d' = sink d ++ l /\ Forall is_IJE l.

Definition edge_post (d : Decoder) (inp : list Answer) (r : result unit)
  : Prop :=
  match r with
  | Done _ d' inp' =>
      edge_rel d d' /\ (length inp' < length inp)%nat /\
      matched_bit 1 d' = true
  | Eof d' => edge_rel d d'
  | AttributeError _ => False
  end.

Definition touched (ss' es' m' sn' : Z) (l : list Annotation) (d : Decoder)
  : Decoder :=
  mkDecoder (address_format d) (samplerate d) ss' es' (bitcount d)
    (databyte d) (state d) (extended d) (cmdkey d) (BC d) (Pcount d)
    (BPcount d) (ADDcount d) (BPss d) (SSCs d) (Pes d) (DATAss d)
    m' sn' (sink d ++ l).

(** Annotation indices that a run from a fresh decoder can produce: all but
    the four extended commands (2..5), the byte count (9) and the command
    warning (14). *)
Definition live_index (i : Z) : bool :=
  negb (existsb (Z.eqb i) [2; 3; 4; 5; 9; 14]).

Definition live (a : Annotation) : Prop := live_index (ann_index a) = true.

(** What holds of the decoder at every point where a run can be observed:
    between two turns of the loop and when the source runs dry. *)
Definition Safe (d : Decoder) : Prop :=
  (cmdkey d = NULL \/ cmdkey d = Key K_R0W \/ cmdkey d = Key K_RW \/
   cmdkey d = Key K_RR) /\
  state d <> FIND_BTEY_COUNT /\ state d <> STATE_NULL /\
  (state d = FIND_COMMAND -> 0 <= bitcount d <= 2) /\
  Forall live (sink d).

(** What holds between two turns of the loop: which command keys go with
    which state, and the values of the counters there. *)
Definition Inv (d : Decoder) : Prop :=
  ADDcount d = 0 /\ BC d = 0 /\ 0 <= bitcount d /\
  (bitcount d <> 0 -> DATAss d <> None) /\
  (bitcount d = 0 -> databyte d = 0) /\
  match state d, cmdkey d with
  | FIND_SSC, NULL | FIND_BUS_PARK, NULL =>
      Pcount d = 0 /\ BPcount d = 0 /\ bitcount d = 0
  | FIND_SLAVE_ADDRESS, NULL => Pcount d = 0 /\ BPcount d = 0
  | FIND_COMMAND, NULL =>
      Pcount d = 0 /\ BPcount d = 0 /\ databyte d = 0 /\
      (bitcount d = 0 \/ bitcount d = 1 \/
       (bitcount d = 2 /\ (extended d = 0 \/ extended d = 1)))
  | FIND_ADDRESS, Key K_RW | FIND_ADDRESS, Key K_RR
  | FIND_DATA, Key K_R0W =>
      Pcount d = 0 /\ BPcount d = 0
  | FIND_DATA, Key K_RW => Pcount d = 1 /\ BPcount d = 0
  | FIND_DATA, Key K_RR => Pcount d = 1 /\ BPcount d = 1
  | FIND_PARITY, Key K_R0W =>
      Pcount d = 0 /\ BPcount d = 0 /\ bitcount d = 0
  | FIND_PARITY, Key K_RW =>
      (Pcount d = 0 \/ Pcount d = 1) /\ BPcount d = 0 /\ bitcount d = 0
  | FIND_PARITY, Key K_RR =>
      ((Pcount d = 0 /\ BPcount d = 0) \/ (Pcount d = 1 /\ BPcount d = 1)) /\
      bitcount d = 0
  | FIND_BUS_PARK, Key K_R0W =>
      Pcount d = 1 /\ BPcount d = 0 /\ bitcount d = 0
  | FIND_BUS_PARK, Key K_RW =>
      Pcount d = 2 /\ BPcount d = 1 /\ bitcount d = 0
  | FIND_BUS_PARK, Key K_RR =>
      ((Pcount d = 1 /\ BPcount d = 1) \/ (Pcount d = 2 /\ BPcount d = 2)) /\
      bitcount d = 0
  | _, _ => False
  end.

Definition body_post (inp : list Answer) (r : result unit) : Prop :=
  match r with
  | Done _ d' inp' => Inv d' /\ Safe d' /\ (length inp' < length inp)%nat
  | Eof d' => Safe d'
  | AttributeError _ => False
  end.

(** ** Fields *)

(** One bit into the accumulator: [databyte <<= 1; databyte |= sdata]. *)
Definition push (acc : Z) (b : bool) : Z := Z.lor (Z.shiftl acc 1) (Z.b2z b).

Definition accumulate (acc : Z) (bits : list bool) : Z := fold_left push bits acc.

(** The [n] low bits of [v], most significant first. *)
Fixpoint encode (n : nat) (v : Z) : list bool :=
  match n with
  | O => []
  | S k => Z.testbit v (Z.of_nat k) :: encode k v
  end.

(** The field a turn of the loop works on and the [key] it hands to
    [handle], read off the calls in [decode]. *)
Definition field (d : Decoder) : option (Proto * Z) :=
  match state d with
  | FIND_SLAVE_ADDRESS => Some (K_SA, 3)
  | FIND_BTEY_COUNT =>
      Some (K_BC,
            if CmdKey_eqb (cmdkey d) K_ERW || CmdKey_eqb (cmdkey d) K_ERR
            then 3 else 2)
  | FIND_ADDRESS =>
      Some (K_ADDRESS,
            if CmdKey_eqb (cmdkey d) K_RW || CmdKey_eqb (cmdkey d) K_RR
            then 4 else 7)
  | FIND_DATA =>
      Some (K_DATA,
            if CmdKey_eqb (cmdkey d) K_R0W then 6
            else if CmdKey_eqb (cmdkey d) K_RW || CmdKey_eqb (cmdkey d) K_RR
            then 7 else BC d * 8 - 1)
  | FIND_PARITY => Some (K_P, 0)
  | _ => None
  end.

(** The state [handle] is told to move to when the field is complete (the
    parity turn overrides it afterwards). *)
Definition field_next (st : StateName) : StateName :=
  match st with
  | FIND_SLAVE_ADDRESS => FIND_COMMAND
  | _ => FIND_PARITY
  end.

(** The three texts of a field annotation. *)
Definition field_texts (cmd : Proto) (key v : Z) : list Label :=
  [Fmt (proto_1 cmd) key v; Fmt (proto_2 cmd) key v; Hex v].

(** The data-line levels sampled by the first [n] turns: each turn in a
    field state starts with [wait({0: 'h'})] and hands its [sdata] to
    [handle]. *)
Fixpoint sampled (n : nat) (d : Decoder) (inp : list Answer) : list bool :=
  match n with
  | O => []
  | S n' =>
      match inp with
      | [] => []
      | a :: _ =>
          ans_sdata a ::
          match decode_body d inp with
          | Done _ d' inp' => sampled n' d' inp'
          | _ => []
          end
      end
  end.

(** What one turn in a field state has done when it completes. *)
Definition field_turn_post (d : Decoder) (inp : list Answer) (cmd : Proto)
  (key : Z) (r : result unit) : Prop :=
  match r with
  | Done _ d' inp' =>
  exists a rest, inp = a :: rest /\
    if bitcount d <? key then
      state d' = state d /\ cmdkey d' = cmdkey d /\ BC d' = BC d /\
      bitcount d' = bitcount d + 1 /\
      databyte d' = push (databyte d) (ans_sdata a) /\
      exists l, sink d' = sink d ++ l /\ Forall is_IJE l
    else
      bitcount d' = 0 /\ databyte d' = 0 /\
      (state d <> FIND_PARITY -> state d' = field_next (state d)) /\
      exists l x, sink d' = sink d ++ l ++ [x] /\ Forall is_IJE l /\
        ann_index x = proto_0 cmd /\
        ann_texts x = field_texts cmd key (push (databyte d) (ans_sdata a)) /\
        ann_es x = samplenum d' /\
        (bitcount d = 0 -> ann_ss x = ans_samplenum a)
  | _ => True
  end.


(** ** Transaction counters *)

Definition counters_le (d d' : Decoder) : Prop :=
  Pcount d <= Pcount d' /\ ADDcount d <= ADDcount d' /\
  BPcount d <= BPcount d'.

Definition counters_zero (d : Decoder) : Prop :=
  Pcount d = 0 /\ ADDcount d = 0 /\ BPcount d = 0.

(** The turn that consumes the last Bus Park of a transaction: it starts in
    the bus-park state with a command key, emits the Bus-Park annotation
    last, and leaves the decoder re-armed with all counters at zero. *)
Definition final_park (d : Decoder) (r : result unit) : Prop :=
  state d = FIND_BUS_PARK /\ cmdkey d <> NULL /\
  match r with
  | Done _ d' _ =>
      state d' = FIND_SSC /\ cmdkey d' = NULL /\ counters_zero d' /\
      exists l x, sink d' = sink d ++ l ++ [x] /\ Forall is_IJE l /\
                  has_index K_BP x
  | _ => False
  end.

Definition counters_post (d : Decoder) (r : result unit) : Prop :=
  counters_le d (result_decoder r) \/ final_park d r.

(** ** Bus Park *)

Definition read_family (k : CmdKey) : bool :=
  CmdKey_eqb k K_ERR || CmdKey_eqb k K_ERRL || CmdKey_eqb k K_RR.

Definition context_kept (d d' : Decoder) : Prop :=
  cmdkey d' = cmdkey d /\ ADDcount d' = ADDcount d /\ Pcount d' = Pcount d /\
  BPcount d' = BPcount d /\ BC d' = BC d /\ bitcount d' = bitcount d /\
  Pes d' = Pes d.

Definition context_reset (d' : Decoder) : Prop :=
  cmdkey d' = NULL /\ ADDcount d' = 0 /\ Pcount d' = 0 /\ BPcount d' = 0 /\
  BC d' = 0 /\ bitcount d' = 0 /\ Pes d' = 0.

(** What a completed turn in the bus-park state has done, for a decoder
    that holds a command key.  The park is consumed when the last wait of
    the turn matched pattern 1. *)
Definition bus_park_post (d : Decoder) (r : result unit) : Prop :=
  match r with
  | Done _ d' _ =>
      if matched_bit 1 d' then
        (exists l x, sink d' = sink d ++ l ++ [x] /\ Forall is_IJE l /\
                     has_index K_BP x) /\
        if read_family (cmdkey d) && (BPcount d =? 1)
        then state d' = FIND_DATA /\ context_kept d d'
        else state d' = FIND_SSC /\ context_reset d'
      else
        state d' = FIND_BUS_PARK /\ context_kept d d' /\
        exists l, sink d' = sink d ++ l /\ Forall is_IJE l
  | _ => True
  end.

(** ** Command classification *)

(** What [cmdset] has done, by outcome. *)
Definition cmdset_post (cmd : Proto) (st : StateName) (d : Decoder)
  (r : result unit) : Prop :=
  match r with
  | Done _ d' _ =>
      cmdkey d' = Key cmd /\ state d' = st /\ bitcount d' = 0 /\
      extended d' = -1 /\
      exists l x, sink d' = sink d ++ l ++ [x] /\ Forall is_IJE l /\
                  has_index cmd x /\ ann_texts x = proto_texts cmd
  | Eof d' => cmdkey d' = cmdkey d /\ state d' = state d
  | AttributeError _ => DATAss d = None
  end.


(** ** Register-0-Write *)

(** What one turn does while the command key is [R0W]. *)
Definition R0W_post (d : Decoder) (r : result unit) : Prop :=
  let d' := result_decoder r in
  state d' <> FIND_ADDRESS /\
  (exists l, sink d' = sink d ++ l /\
             Forall (fun x => ~ has_index K_ADDRESS x) l) /\
  (state d = FIND_DATA -> state d' = FIND_DATA \/ state d' = FIND_PARITY) /\
  (state d = FIND_PARITY ->
   match r with
   | Done _ _ _ =>
       state d' = FIND_BUS_PARK /\ Pcount d' = 1 /\
       exists l x, sink d' = sink d ++ l ++ [x] /\ Forall is_IJE l /\
                   has_index K_P x
   | _ => state d' = FIND_PARITY
   end).

(** ** Runs from a fresh decoder *)

(** The decoder and the unread answers after [n] completed turns. *)
Definition after (n : nat) (fmt : AddressFormat) (inp : list Answer)
  : Decoder :=
  result_decoder (turns n (new_Decoder fmt) inp).

Definition unread (n : nat) (fmt : AddressFormat) (inp : list Answer)
  : list Answer :=
  match turns n (new_Decoder fmt) inp with
  | Done _ _ rest => rest
  | _ => []
  end.

(** ** Sample inputs *)

(** One bit on a clean bus: the data level is read while the clock is high
    (the single pattern of [wait({0: 'h'})] matches), then the next rising
    clock edge arrives (pattern 1 of the edge wait). *)
Definition clean_bit (sn : Z) (b : bool) : list Answer :=
  [mkAnswer 1 sn true b; mkAnswer 2 (sn + 5) true b].

Fixpoint clean_bits (sn : Z) (bits : list bool) : list Answer :=
  match bits with
  | [] => []
  | b :: bits' => clean_bit sn b ++ clean_bits (sn + 10) bits'
  end.

(** An idle bus (both lines low), the data line rising, then the Sequence
    Start Condition: data falling with the clock low, and the first rising
    clock edge. *)
Definition idle_then_SSC : list Answer :=
  [mkAnswer 2 0 false false; mkAnswer 2 10 false true;
   mkAnswer 2 20 false false; mkAnswer 2 30 true false].

(** The final Bus Park: both lines low. *)
Definition bus_park (sn : Z) : list Answer := [mkAnswer 2 sn false false].

(** Register Write: slave address 1010, command bits 0 1 0, address bits
    0 0 1 1 0, parity 1, data 1100 1010, parity 0, Bus Park. *)
Definition rw_trace : list Answer :=
  idle_then_SSC ++
  clean_bits 40
    [true; false; true; false;
     false; true; false;
     false; false; true; true; false;
     true;
     true; true; false; false; true; false; true; false;
     false] ++
  bus_park 500.

(** Slave address 1010, then command bits 0 0 0 1 and four more bits. *)
Definition reserved_command_trace : list Answer :=
  idle_then_SSC ++
  clean_bits 40
    [true; false; true; false;
     false; false; false; true;
     false; true; true; false].

(** Register 0 Write: slave address 1010, command bit 1, data bits
    0101 101, parity 1, Bus Park. *)
Definition r0w_trace : list Answer :=
  idle_then_SSC ++
  clean_bits 40
    [true; false; true; false;
     true;
     false; true; false; true; true; false; true;
     true] ++
  bus_park 300.

(** Register Read: slave address 0011, command bits 0 1 1, address bits
    1 0 0 0 1, parity 0, Bus Park, data 0000 1111, parity 1, Bus Park. *)
Definition rr_trace : list Answer :=
  idle_then_SSC ++
  clean_bits 40
    [false; false; true; true;
     false; true; true;
     true; false; false; false; true;
     false] ++
  bus_park 200 ++
  clean_bits 210
    [false; false; false; false; true; true; true; true;
     true] ++
  bus_park 400.

(** ** Field widths *)

(** Number of bits of the address field and of the byte-count field, by
    command key. *)
Definition address_width (k : CmdKey) : nat :=
  if CmdKey_eqb k K_RW || CmdKey_eqb k K_RR then 5 else 8.

Definition byte_count_width (k : CmdKey) : nat :=
  if CmdKey_eqb k K_ERW || CmdKey_eqb k K_ERR then 4 else 3.

(** ** The [address_format] option *)

(** The option is one more attribute of the object.  Whether it reaches
    the annotations depends on what the decoder does with it, and also on
    what it asks of the host: a decoder that chose its wait conditions by
    the option would be handed other samples.  The methods are therefore
    run once more against a host that is given the conditions of every
    [wait]. *)

(** A sample source as the decoder meets it.  It answers a [wait]
    according to the conditions it is handed, or has nothing left that
    satisfies them, and goes on as a source that may depend on them too.
    Every sequence of waits runs dry after finitely many answers, as with
    a capture of finite length of which every [wait] consumes a sample. *)
Inductive Source : Type :=
  | Dry
  | Serve (reply : list Condition -> option Answer)
          (rest : list Condition -> Source).

(** The source that hands out the given answers whatever it is asked. *)
Fixpoint replay (inp : list Answer) : Source :=
  match inp with
  | [] => Dry
  | a :: inp' => Serve (fun _ => Some a) (fun _ => replay inp')
  end.

(** The methods of the decoder over a [Source]: the text of each method is
    the one above; [wait] and the edge-waiting loop pass their conditions
    to the source. *)
Module Hosted.

Inductive result (A : Type) : Type :=
  | Done (a : A) (d : Decoder) (src : Source)
  | Eof (d : Decoder)
  | AttributeError (d : Decoder).

Arguments Done {A} a d src.
Arguments Eof {A} d.
Arguments AttributeError {A} d.

Definition M (A : Type) : Type := Decoder -> Source -> result A.

Definition ret {A} (a : A) : M A := fun d src => Done a d src.

Definition bind {A B} (m : M A) (k : A -> M B) : M B :=
  fun d src =>
    match m d src with
    | Done a d' src' => k a d' src'
    | Eof d' => Eof d'
    | AttributeError d' => AttributeError d'
    end.

Declare Scope hosted_scope.
Notation "x <- m ;; k" := (bind m (fun x => k))
  (at level 61, m at next level, right associativity) : hosted_scope.
Notation "m ;; k" := (bind m (fun _ => k))
  (at level 61, right associativity) : hosted_scope.
Local Open Scope hosted_scope.

Definition gets {A} (f : Decoder -> A) : M A :=
  fun d src => Done (f d) d src.
Definition modify (f : Decoder -> Decoder) : M unit :=
  fun d src => Done tt (f d) src.
Definition when (b : bool) (m : M unit) : M unit := if b then m else ret tt.

(** Reading an attribute that may not have been assigned yet. *)
Definition attr {A} (f : Decoder -> option A) : M A :=
  fun d src =>
    match f d with
    | Some a => Done a d src
    | None => AttributeError d
    end.

(** [self.wait(conds)] *)
Definition wait (conds : list Condition) : M (bool * bool) :=
  fun d src =>
    match src with
    | Dry => Eof d
    | Serve reply rest =>
        match reply conds with
        | None => Eof d
        | Some a => Done (ans_sclk a, ans_sdata a) (observe a d) (rest conds)
        end
    end.

Definition handle_BP (cmd : Proto) (st : StateName) : M unit :=
  modify (fun d => set_ss (Pes d) d) ;;
  modify (fun d => set_es (samplenum d) d) ;;
  modify (putx (proto_0 cmd) (proto_texts cmd)) ;;
  modify (set_state st).

(** The edge-waiting loop of [handle], [handle_CMD] and [cmdset]. *)
Fixpoint wait_edge (conds : list Condition) (d : Decoder) (src : Source)
  {struct src} : result unit :=
  match src with
  | Dry => Eof d
  | Serve reply1 rest1 =>
      match reply1 conds with
      | None => Eof d
      | Some a1 =>
          let d1 := observe a1 d in
          if matched_bit 0 d1 then
            let d2 := set_ss (samplenum d1) d1 in
            match rest1 conds with
            | Dry => Eof d2
            | Serve reply2 rest2 =>
                match reply2 conds with
                | None => Eof d2
                | Some a2 =>
                    let d3 := observe a2 d2 in
                    let d4 :=
                      if matched_bit 0 d3
                      then putx (proto_0 K_IJE) (proto_texts K_IJE)
                             (set_es (samplenum d3) d3)
                      else d3 in
                    if matched_bit 1 d4 then
                      Done tt (putx (proto_0 K_IJE) (proto_texts K_IJE)
                                 (set_es (samplenum d4) d4)) (rest2 conds)
                    else if matched_bit 1 d4 then Done tt d4 (rest2 conds)
                    else wait_edge conds d4 (rest2 conds)
                end
            end
          else if matched_bit 1 d1 then Done tt d1 (rest1 conds)
          else wait_edge conds d1 (rest1 conds)
      end
  end.

Definition handle (sclk sdata : bool) (cmd : Proto) (st : StateName)
  (key : Z) : M unit :=
  modify (fun d => set_databyte (Z.shiftl (databyte d) 1) d) ;;
  modify (fun d => set_databyte (Z.lor (databyte d) (Z.b2z sdata)) d) ;;
  b <- gets bitcount ;;
  when (b =? 0) (modify (fun d => set_DATAss (Some (samplenum d)) d)) ;;
  b <- gets bitcount ;;
  if b <? key then
    wait_edge cond_edge_r ;;
    modify (fun d => set_bitcount (bitcount d + 1) d)
  else
    v <- gets databyte ;;
    wait_edge cond_edge_r ;;
    s0 <- attr DATAss ;;
    modify (set_ss s0) ;;
    modify (fun d => set_es (samplenum d) d) ;;
    when (Proto_eqb cmd K_P) (modify (fun d => set_Pes (samplenum d) d)) ;;
    modify (putx (proto_0 cmd)
              [Fmt (proto_1 cmd) key v; Fmt (proto_2 cmd) key v; Hex v]) ;;
    modify (set_bitcount 0) ;;
    modify (set_databyte 0) ;;
    modify (set_state st).

Definition init : M unit :=
  modify (set_cmdkey NULL) ;;
  modify (set_ADDcount 0) ;;
  modify (set_Pcount 0) ;;
  modify (set_BPcount 0) ;;
  modify (set_BC 0) ;;
  modify (set_bitcount 0) ;;
  modify (set_Pes 0) ;;
  st <- gets state ;;
  if StateName_eqb st FIND_COMMAND
  then modify (set_state FIND_BUS_PARK)
  else modify (set_state FIND_SSC).

Definition cmdset (cmd : Proto) (st : StateName) : M unit :=
  wait_edge cond_edge_r ;;
  s0 <- attr DATAss ;;
  modify (set_ss s0) ;;
  modify (fun d => set_es (samplenum d) d) ;;
  modify (putx (proto_0 cmd) (proto_texts cmd)) ;;
  modify (set_state st) ;;
  modify (set_bitcount 0) ;;
  modify (set_extended (-1)) ;;
  modify (set_cmdkey (Key cmd)).

(** [handle_CMD] is a chain of [if self.bitcount == k:] blocks, most of
    which end in [return]; each block below is one of them followed by the
    rest of the method. *)
Definition handle_CMD_tail : M unit :=
  b <- gets bitcount ;;
  when (b <? 4)
    (wait_edge cond_edge_h ;;
     modify (fun d => set_bitcount (bitcount d + 1) d)).

Definition handle_CMD_4 (sdata : bool) : M unit :=
  b <- gets bitcount ;;
  if b =? 4 then
    if sdata then cmdset K_ERRL FIND_BTEY_COUNT
    else cmdset K_ERWL FIND_BTEY_COUNT
  else handle_CMD_tail.

Definition handle_CMD_3 (sdata : bool) : M unit :=
  b <- gets bitcount ;;
  if b =? 3 then
    if truthy (invert (Z.b2z sdata)) then
      e <- gets extended ;;
      if truthy e then cmdset K_ERR FIND_BTEY_COUNT
      else cmdset K_ERW FIND_BTEY_COUNT
    else
      e <- gets extended ;;
      if truthy e then
        modify (fun d => set_es (samplenum d) d) ;;
        modify (putx (proto_0 K_CMD_WARNINGS) (proto_texts K_CMD_WARNINGS)) ;;
        init
      else handle_CMD_4 sdata
  else handle_CMD_4 sdata.

Definition handle_CMD_2 (sdata : bool) : M unit :=
  b <- gets bitcount ;;
  if b =? 2 then
    e <- gets extended ;;
    if truthy (invert e) then
      if sdata then cmdset K_RR FIND_ADDRESS
      else cmdset K_RW FIND_ADDRESS
    else handle_CMD_3 sdata
  else handle_CMD_3 sdata.

Definition handle_CMD_1 (sdata : bool) : M unit :=
  b <- gets bitcount ;;
  when (b =? 1)
    (if sdata then modify (set_extended 0) else modify (set_extended 1)) ;;
  handle_CMD_2 sdata.

Definition handle_CMD (sclk sdata : bool) : M unit :=
  b <- gets bitcount ;;
  if b =? 0 then
    modify (fun d => set_DATAss (Some (samplenum d)) d) ;;
    if sdata then cmdset K_R0W FIND_DATA
    else handle_CMD_1 sdata
  else handle_CMD_1 sdata.

Definition initBP (sclk sdata : bool) (st : StateName) (key : Z) : M unit :=
  handle_BP K_BP st ;;
  modify (set_state st) ;;
  when (truthy key) init.

(** ** The body of [decode]'s [while True] loop, one branch per state *)

Definition put_proto (cmd : Proto) : M unit :=
  modify (putx (proto_0 cmd) (proto_texts cmd)).

(** [self.ss,self.es = self.BPss,self.samplenum], the SSC annotation and
    the move to the slave address. *)
Definition SSC_found : M unit :=
  modify (fun d => set_es (samplenum d) (set_ss (BPss d) d)) ;;
  put_proto K_SSC ;;
  modify (set_state FIND_SLAVE_ADDRESS).

Definition decode_FIND_SSC : M unit :=
  wait [[(0, lvl_h)]; [(0, lvl_l); (1, edge_f)]] ;;
  m0 <- gets (matched_bit 0) ;;
  when m0
    (modify (fun d => set_ss (samplenum d) d) ;;
     modify (fun d => set_es (samplenum d) d) ;;
     put_proto K_SSC_WARNINGS ;;
     modify (set_state FIND_BUS_PARK)) ;;
  m1 <- gets (matched_bit 1) ;;
  when m1
    (wait cond_edge_r ;;
     m0 <- gets (matched_bit 0) ;;
     if m0 then
       modify (fun d => set_ss (samplenum d) d) ;;
       wait cond_edge_r ;;
       m0 <- gets (matched_bit 0) ;;
       when m0
         (modify (fun d => set_es (samplenum d) d) ;; put_proto K_IJE) ;;
       m1 <- gets (matched_bit 1) ;;
       if m1 then
         modify (fun d => set_es (samplenum d) d) ;;
         put_proto K_IJE ;;
         SSC_found                                  (* continue *)
       else
         m1 <- gets (matched_bit 1) ;;
         when m1 SSC_found
     else
       m1 <- gets (matched_bit 1) ;;
       when m1 SSC_found).

Definition decode_FIND_SLAVE_ADDRESS : M unit :=
  p <- wait cond_h ;;
  handle (fst p) (snd p) K_SA FIND_COMMAND 3.

Definition decode_FIND_COMMAND : M unit :=
  p <- wait cond_h ;;
  handle_CMD (fst p) (snd p).

Definition decode_FIND_BTEY_COUNT : M unit :=
  p <- wait cond_h ;;
  k <- gets cmdkey ;;
  if CmdKey_eqb k K_ERW || CmdKey_eqb k K_ERR
  then handle (fst p) (snd p) K_BC FIND_PARITY 3
  else handle (fst p) (snd p) K_BC FIND_PARITY 2.

Definition decode_FIND_ADDRESS : M unit :=
  p <- wait cond_h ;;
  k <- gets cmdkey ;;
  if CmdKey_eqb k K_RW || CmdKey_eqb k K_RR
  then handle (fst p) (snd p) K_ADDRESS FIND_PARITY 4
  else handle (fst p) (snd p) K_ADDRESS FIND_PARITY 7.

Definition decode_FIND_DATA : M unit :=
  p <- wait cond_h ;;
  k <- gets cmdkey ;;
  if CmdKey_eqb k K_R0W
  then handle (fst p) (snd p) K_DATA FIND_PARITY 6
  else if CmdKey_eqb k K_RW || CmdKey_eqb k K_RR
  then handle (fst p) (snd p) K_DATA FIND_PARITY 7
  else
    n <- gets BC ;;
    handle (fst p) (snd p) K_DATA FIND_PARITY (n * 8 - 1).

Definition decode_FIND_PARITY : M unit :=
  p <- wait cond_h ;;
  modify (fun d => set_Pcount (Pcount d + 1) d) ;;
  handle (fst p) (snd p) K_P STATE_NULL 0 ;;
  modify parity_dispatch.

(** The branch [if self.cmdkey == 'NULL':] of the bus-park state: an idle
    bus, watched for the start of a sequence. *)
Definition idle_bus_park : M unit :=
  wait [[(0, edge_r); (1, lvl_l)]; [(0, lvl_l); (1, edge_r)]] ;;
  m0 <- gets (matched_bit 0) ;;
  if m0 then
    modify (fun d => set_ss (samplenum d) d) ;;
    wait [[(0, edge_r); (1, lvl_l)]; [(0, edge_f); (1, lvl_l)];
          [(0, lvl_l); (1, edge_r)]] ;;
    m0 <- gets (matched_bit 0) ;;
    when m0
      (modify (fun d => set_es (samplenum d) d) ;;
       put_proto K_SSC_WARNINGS ;;
       modify (set_state FIND_BUS_PARK)) ;;
    m1 <- gets (matched_bit 1) ;;
    when m1 (modify (fun d => set_BPss (samplenum d) d)) ;;
    m2 <- gets (matched_bit 2) ;;
    if m2 then
      modify (set_state FIND_SSC)                   (* continue *)
    else
      m1 <- gets (matched_bit 1) ;;
      when m1 (modify (set_state FIND_SSC))
  else
    m1 <- gets (matched_bit 1) ;;
    when m1 (modify (set_state FIND_SSC)).

Definition decode_FIND_BUS_PARK : M unit :=
  p <- wait [[(0, lvl_l); (1, edge_r)]; [(0, lvl_l); (1, lvl_l)]] ;;
  m0 <- gets (matched_bit 0) ;;
  when m0
    (modify (fun d => set_ss (samplenum d) d) ;;
     wait [[(0, lvl_l); (1, edge_e)]; [(0, lvl_l); (1, lvl_l)]] ;;
     m0 <- gets (matched_bit 0) ;;
     when m0
       (modify (fun d => set_es (samplenum d) d) ;; put_proto K_IJE) ;;
     m1 <- gets (matched_bit 1) ;;
     when m1
       (modify (fun d => set_es (samplenum d) d) ;; put_proto K_IJE)) ;;
  m1 <- gets (matched_bit 1) ;;
  when m1
    (modify (fun d => set_BPss (samplenum d) d) ;;
     k <- gets cmdkey ;;
     match k with
     | NULL => idle_bus_park
     | _ =>
         if CmdKey_eqb k K_ERR || CmdKey_eqb k K_ERRL || CmdKey_eqb k K_RR
         then
           n <- gets BPcount ;;
           initBP (fst p) (snd p) FIND_DATA (if n =? 1 then 0 else 1)
         else initBP (fst p) (snd p) FIND_SSC 1
     end).

(** One turn of [while True:]. *)
Definition decode_body : M unit :=
  st <- gets state ;;
  match st with
  | FIND_SSC => decode_FIND_SSC
  | FIND_SLAVE_ADDRESS => decode_FIND_SLAVE_ADDRESS
  | FIND_COMMAND => decode_FIND_COMMAND
  | FIND_BTEY_COUNT => decode_FIND_BTEY_COUNT
  | FIND_ADDRESS => decode_FIND_ADDRESS
  | FIND_DATA => decode_FIND_DATA
  | FIND_PARITY => decode_FIND_PARITY
  | FIND_BUS_PARK => decode_FIND_BUS_PARK
  | STATE_NULL => ret tt
  end.

Fixpoint decode (fuel : nat) (d : Decoder) (src : Source) : outcome :=
  match fuel with
  | O => Spinning d
  | S fuel' =>
      match decode_body d src with
      | Done _ d' src' => decode fuel' d' src'
      | Eof d' => Stopped d'
      | AttributeError d' => Crashed d'
      end
  end.

End Hosted.

(** The decoder with the option blanked out. *)
Definition erase (d : Decoder) : Decoder :=
  mkDecoder shifted (samplerate d) (ss d) (es d) (bitcount d)
    (databyte d) (state d) (extended d) (cmdkey d) (BC d) (Pcount d)
    (BPcount d) (ADDcount d) (BPss d) (SSCs d) (Pes d) (DATAss d)
    (matched d) (samplenum d) (sink d).

(** Two decoders that differ at most in the option. *)
Definition same_but_format (d1 d2 : Decoder) : Prop := erase d1 = erase d2.

Definition result_same {A} (r1 r2 : Hosted.result A) : Prop :=
  match r1, r2 with
  | Hosted.Done a1 d1 src1, Hosted.Done a2 d2 src2 =>
      a1 = a2 /\ same_but_format d1 d2 /\ src1 = src2
  | Hosted.Eof d1, Hosted.Eof d2 => same_but_format d1 d2
  | Hosted.AttributeError d1, Hosted.AttributeError d2 =>
      same_but_format d1 d2
  | _, _ => False
  end.

Definition outcome_same (o1 o2 : outcome) : Prop :=
  match o1, o2 with
  | Stopped d1, Stopped d2 => same_but_format d1 d2
  | Crashed d1, Crashed d2 => same_but_format d1 d2
  | Spinning d1, Spinning d2 => same_but_format d1 d2
  | _, _ => False
  end.

(** A computation that cannot tell the two apart: on the same source it
    returns the same value, leaves the same object but for the option,
    and leaves the source where the other leaves it, having asked the
    same of it. *)
Definition blind {A} (m : Hosted.M A) : Prop :=
  forall d1 d2 src,
    same_but_format d1 d2 -> result_same (m d1 src) (m d2 src).

(** What an annotation says about framing: where the field starts and
    ends, and which kind it is. *)
Definition framing (a : Annotation) : Z * Z * Z :=
  (ann_ss a, ann_es a, ann_index a).

(** A result over a list of answers and the result over the source that
    replays the list. *)
Definition replayed {A} (r : result A) (r' : Hosted.result A) : Prop :=
  match r, r' with
  | Done a d inp, Hosted.Done a' d' src =>
      a = a' /\ d = d' /\ src = replay inp
  | Eof d, Hosted.Eof d' => d = d'
  | AttributeError d, Hosted.AttributeError d' => d = d'
  | _, _ => False
  end.

Definition agree {A} (m : M A) (m' : Hosted.M A) : Prop :=
  forall d inp, replayed (m d inp) (m' d (replay inp)).

(** * Further properties: vocabulary *)

(** ** Tables of the decoder class *)

(** The class attribute [annotations]: one triple per annotation class. *)
Definition annotations : list (string * string * string) :=
  [("7", "ssc", "Sequence Start Condition");
   ("6", "sa", "Slave Address");
   ("1", "erw", "Extended register write");
   ("5", "err", "Extended register read");
   ("0", "erwl", "Extended register write long");
   ("112", "errl", "Extended register read long");
   ("111", "rw", "Register write");
   ("110", "rr", "Register read");
   ("109", "r0w", "Register 0 write");
   ("108", "bc", "Byte");
   ("80", "p", "Parity");
   ("75", "address", "Address");
   ("70", "bp", "Bus pack");
   ("65", "data", "DATA");
   ("1000", "Command warnings", "Command warnings");
   ("50", "Bus Idle Condition ", "Bus Idle Condition ");
   ("1000", "SSC warnings", "SSC warnings");
   ("1000", "Illegal Jump Edge", "IJE_WAEN")].

(** The class attribute [annotation_rows]: row id, row name and the
    annotation classes shown in the row. *)
Definition annotation_rows : list (string * string * list Z) :=
  [("command-data", "Command/Data",
    [0; 1; 2; 3; 4; 5; 6; 7; 8; 9; 10; 11; 12; 13; 15]);
   ("warnings", "Warnings", [14; 16; 17])].

(** All keys of [proto], in the order of the table. *)
Definition proto_keys : list Proto :=
  [K_SSC; K_SA; K_ERW; K_ERR; K_ERWL; K_ERRL; K_RW; K_RR; K_R0W; K_BC; K_P;
   K_ADDRESS; K_BP; K_DATA; K_CMD_WARNINGS; K_BIC; K_SSC_WARNINGS; K_IJE].

(** The rows that list annotation class [i]. *)
Definition rows_of (i : Z) : list string :=
  map (fun r => fst (fst r))
    (filter (fun r => existsb (Z.eqb i) (snd r)) annotation_rows).

(** ** [metadata] *)

(** [metadata(key, value)]; the host's constant [srd.SRD_CONF_SAMPLERATE]
    is the first argument. *)
Definition metadata (SRD_CONF_SAMPLERATE key value : Z) (d : Decoder)
  : Decoder :=
  if key =? SRD_CONF_SAMPLERATE then set_samplerate (Some value) d else d.

(** ** The edge-waiting loop on a host whose patterns exclude each other *)

(** An answer that matches exactly one of the two patterns of the loop, as
    every answer of the host does: pattern 0 asks for a low clock, pattern
    1 for a rising or high one. *)
Definition exclusive (a : Answer) : Prop :=
  truthy (Z.land (ans_matched a) (Z.shiftl 1 0)) =
  negb (truthy (Z.land (ans_matched a) (Z.shiftl 1 1))).

(** ** Annotation kinds by state *)

(** The annotation classes a turn can emit, by the state it starts in. *)
Definition may_emit (st : StateName) : list Proto :=
  match st with
  | FIND_SSC => [K_SSC_WARNINGS; K_IJE; K_SSC]
  | FIND_SLAVE_ADDRESS => [K_IJE; K_SA]
  | FIND_COMMAND =>
      [K_IJE; K_R0W; K_RR; K_RW; K_ERR; K_ERW; K_ERRL; K_ERWL;
       K_CMD_WARNINGS]
  | FIND_BTEY_COUNT => [K_IJE; K_BC]
  | FIND_ADDRESS => [K_IJE; K_ADDRESS]
  | FIND_DATA => [K_IJE; K_DATA]
  | FIND_PARITY => [K_IJE; K_P]
  | FIND_BUS_PARK => [K_IJE; K_SSC_WARNINGS; K_BP]
  | STATE_NULL => []
  end.

Definition emits_only (cmds : list Proto) (a : Annotation) : Prop :=
  existsb (fun c => ann_index a =? proto_0 c) cmds = true.


(** The answers of a clean bus, timed by [t]: answer number [k] comes at
    sample [t k].  Each bit takes two answers: the data level read while
    the clock is high, then the next rising clock edge. *)
Fixpoint bits_from (t : nat -> Z) (k : nat) (bits : list bool)
  : list Answer :=
  match bits with
  | [] => []
  | b :: bits' =>
      mkAnswer 1 (t k) true b :: mkAnswer 2 (t (S k)) true b ::
      bits_from t (S (S k)) bits'
  end.

(** Idle bus, data line rising, then the Sequence Start Condition. *)
Definition start_of_frame (t : nat -> Z) : list Answer :=
  [mkAnswer 2 (t 0%nat) false false; mkAnswer 2 (t 1%nat) false true;
   mkAnswer 2 (t 2%nat) false false; mkAnswer 2 (t 3%nat) true false].

Definition park_at (t : nat -> Z) (k : nat) : list Answer :=
  [mkAnswer 2 (t k) false false].

Definition field_ann (cmd : Proto) (key s e : Z) (bits : list bool)
  : Annotation :=
  mkAnnotation s e (proto_0 cmd) (field_texts cmd key (accumulate 0 bits)).

Definition plain_ann (cmd : Proto) (s e : Z) : Annotation :=
  mkAnnotation s e (proto_0 cmd) (proto_texts cmd).

(** ** Sequence Start and idle bus *)

(** The attributes of the transaction context and of the bit accumulator:
    none of them is assigned while the decoder looks for a Bus Park on an
    idle bus or for a Sequence Start. *)
Definition transaction_ctx (d : Decoder) :=
  (cmdkey d, Pcount d, BPcount d, ADDcount d, BC d, bitcount d, databyte d,
   extended d, Pes d, DATAss d).

(** What a completed turn in FIND SSC has done. *)
Definition SSC_post (d : Decoder) (r : result unit) : Prop :=
  match r with
  | Done _ d' _ =>
      transaction_ctx d' = transaction_ctx d /\ BPss d' = BPss d /\
      exists l, sink d' = sink d ++ l /\
        match state d' with
        | FIND_SSC => Forall is_IJE l
        | FIND_BUS_PARK =>
            exists x l', l = x :: l' /\ has_index K_SSC_WARNINGS x /\
                         ann_ss x = ann_es x /\ Forall is_IJE l'
        | FIND_SLAVE_ADDRESS =>
            exists l' x, l = l' ++ [x] /\ has_index K_SSC x /\
                         ann_ss x = BPss d /\ ann_es x = samplenum d' /\
                         matched_bit 1 d' = true
        | _ => False
        end
  | _ => True
  end.

(** What a completed turn in FIND BUS_PARK has done when no command key is
    held (an idle bus). *)
Definition idle_post (d : Decoder) (r : result unit) : Prop :=
  match r with
  | Done _ d' _ =>
      transaction_ctx d' = transaction_ctx d /\
      (state d' = FIND_BUS_PARK \/ state d' = FIND_SSC) /\
      exists l, sink d' = sink d ++ l /\
                Forall (emits_only [K_IJE; K_SSC_WARNINGS]) l
  | _ => True
  end.

(** ** Parity *)

(** What a completed turn in FIND PARITY has done, by command key. *)
Definition parity_post (d : Decoder) (r : result unit) : Prop :=
  match r with
  | Done _ d' _ =>
      Pcount d' = Pcount d + 1 /\ Pes d' = samplenum d' /\
      cmdkey d' = cmdkey d /\
      (exists l x, sink d' = sink d ++ l ++ [x] /\ Forall is_IJE l /\
                   has_index K_P x /\ ann_es x = Pes d') /\
      match cmdkey d with
      | Key K_R0W => state d' = FIND_BUS_PARK /\ BPcount d' = BPcount d
      | Key K_RW =>
          if Pcount d =? 0
          then state d' = FIND_DATA /\ BPcount d' = BPcount d
          else state d' = FIND_BUS_PARK /\ BPcount d' = 1
      | Key K_RR => state d' = FIND_BUS_PARK /\ BPcount d' = Pcount d'
      | _ => False
      end
  | _ => True
  end.

(** ** Where a field annotation starts *)

(** The sample at which the field in progress started: the sample of the
    turn's first answer when the field starts now, the recorded [DATAss]
    otherwise. *)
Definition field_start (d : Decoder) (inp : list Answer) : option Z :=
  if bitcount d =? 0 then option_map ans_samplenum (hd_error inp)
  else DATAss d.

Definition field_start_post (d : Decoder) (inp : list Answer) (cmd : Proto)
  (key : Z) (r : result unit) : Prop :=
  match r with
  | Done _ d' _ =>
      if bitcount d <? key then DATAss d' = field_start d inp
      else
        exists l x, sink d' = sink d ++ l ++ [x] /\ Forall is_IJE l /\
          has_index cmd x /\ Some (ann_ss x) = field_start d inp /\
          ann_es x = samplenum d'
  | _ => True
  end.

(** ** Whole frames on a clean bus *)

(** Register Write: slave address, command bits 0 1 0, five address bits,
    parity, eight data bits, parity, Bus Park. *)
Definition rw_frame (t : nat -> Z) (sa addr : list bool) (p1 : bool)
  (data : list bool) (p2 : bool) : list Answer :=
  start_of_frame t ++
  bits_from t 4 (sa ++ [false; true; false] ++ addr ++ [p1] ++ data ++ [p2])
  ++ park_at t 48.

(** Register Read: slave address, command bits 0 1 1, five address bits,
    parity, Bus Park, eight data bits, parity, Bus Park. *)
Definition rr_frame (t : nat -> Z) (sa addr : list bool) (p1 : bool)
  (data : list bool) (p2 : bool) : list Answer :=
  start_of_frame t ++
  bits_from t 4 (sa ++ [false; true; true] ++ addr ++ [p1]) ++
  park_at t 30 ++
  bits_from t 31 (data ++ [p2]) ++
  park_at t 49.

(** Register 0 Write: slave address, command bit 1, seven data bits,
    parity, Bus Park. *)
Definition r0w_frame (t : nat -> Z) (sa data : list bool) (p : bool)
  : list Answer :=
  start_of_frame t ++
  bits_from t 4 (sa ++ [true] ++ data ++ [p]) ++
  park_at t 30.

(** ** Order of the annotations *)

(** Warnings may appear anywhere. *)
Definition is_warning (a : Annotation) : bool :=
  (ann_index a =? proto_0 K_IJE) || (ann_index a =? proto_0 K_SSC_WARNINGS)
  || (ann_index a =? proto_0 K_CMD_WARNINGS).

(** Which annotation class may come next after class [k] ([None]: nothing
    emitted yet), warnings aside. *)
Definition follows (k : option Proto) (i : Z) : bool :=
  match k with
  | None => i =? proto_0 K_SSC
  | Some K_BP => (i =? proto_0 K_SSC) || (i =? proto_0 K_DATA)
  | Some K_SSC => i =? proto_0 K_SA
  | Some K_SA =>
      (i =? proto_0 K_R0W) || (i =? proto_0 K_RW) || (i =? proto_0 K_RR)
  | Some K_RW | Some K_RR => i =? proto_0 K_ADDRESS
  | Some K_R0W => i =? proto_0 K_DATA
  | Some K_ADDRESS | Some K_DATA => i =? proto_0 K_P
  | Some K_P => (i =? proto_0 K_DATA) || (i =? proto_0 K_BP)
  | _ => false
  end.

(** The key of [proto] with index [i]. *)
Definition key_of (i : Z) : option Proto :=
  find (fun c => proto_0 c =? i) proto_keys.

(** Reads a list of annotations from class [k] on: the class of the last
    annotation that is not a warning, or [None] when some annotation does
    not follow its predecessor. *)
Fixpoint chain (k : option Proto) (l : list Annotation)
  : option (option Proto) :=
  match l with
  | [] => Some k
  | a :: l' =>
      if is_warning a then chain k l'
      else if follows k (ann_index a) then chain (key_of (ann_index a)) l'
      else None
  end.

(** The class of the last annotation that is not a warning, by state and
    command key. *)
Definition expected_last (d : Decoder) (k : option Proto) : Prop :=
  match state d, cmdkey d with
  | FIND_SSC, NULL | FIND_BUS_PARK, NULL => k = None \/ k = Some K_BP
  | FIND_SLAVE_ADDRESS, NULL => k = Some K_SSC
  | FIND_COMMAND, NULL => k = Some K_SA
  | FIND_ADDRESS, Key K_RW => k = Some K_RW
  | FIND_ADDRESS, Key K_RR => k = Some K_RR
  | FIND_DATA, Key K_R0W => k = Some K_R0W
  | FIND_DATA, Key K_RW => k = Some K_P
  | FIND_DATA, Key K_RR => k = Some K_BP
  | FIND_PARITY, Key K_R0W => k = Some K_DATA
  | FIND_PARITY, Key K_RW | FIND_PARITY, Key K_RR =>
      k = Some (if Pcount d =? 0 then K_ADDRESS else K_DATA)
  | FIND_BUS_PARK, Key _ => k = Some K_P
  | _, _ => False
  end.

Definition Ord (d : Decoder) : Prop :=
  exists k, chain None (sink d) = Some k /\ expected_last d k.

Definition order_post (r : result unit) : Prop :=
  match r with
  | Done _ d' _ => Ord d'
  | Eof d' => exists k, chain None (sink d') = Some k
  | AttributeError _ => False
  end.

(** ** Progress *)

Definition progress_post (d : Decoder) (inp : list Answer)
  (r : result unit) : Prop :=
  match r with
  | Done _ d' inp' =>
      match state d with
      | STATE_NULL => d' = d /\ inp' = inp
      | _ => (length inp' < length inp)%nat
      end
  | _ => True
  end.

(** * Proofs *)

(** ** The edge-waiting loop *)

Lemma edge_rel_refl d : edge_rel d d.
Proof. split; [reflexivity|]. exists []. now rewrite app_nil_r. Qed.

Lemma edge_rel_trans d1 d2 d3 :
  edge_rel d1 d2 -> edge_rel d2 d3 -> edge_rel d1 d3.
Proof.
  intros [C1 (l1 & S1 & F1)] [C2 (l2 & S2 & F2)]. split; [congruence|].
  exists (l1 ++ l2). rewrite S2, S1, app_assoc. split; [reflexivity|].
  apply Forall_app; auto.
Qed.

Lemma edge_rel_observe a d : edge_rel d (observe a d).
Proof. split; [reflexivity|]. exists []. simpl. now rewrite app_nil_r. Qed.

Lemma edge_rel_set_ss v d : edge_rel d (set_ss v d).
Proof. split; [reflexivity|]. exists []. simpl. now rewrite app_nil_r. Qed.

Lemma edge_rel_set_es v d : edge_rel d (set_es v d).
Proof. split; [reflexivity|]. exists []. simpl. now rewrite app_nil_r. Qed.

Lemma edge_rel_putx_IJE d :
  edge_rel d (putx (proto_0 K_IJE) (proto_texts K_IJE) d).
Proof.
  split; [reflexivity|]. eexists. split; [reflexivity|].
  repeat constructor.
Qed.

Ltac edge_chain :=
  repeat first
    [ apply edge_rel_refl
    | apply edge_rel_putx_IJE
    | assumption
    | eapply edge_rel_trans;
      [| first [ apply edge_rel_putx_IJE | apply edge_rel_set_es
               | apply edge_rel_set_ss | apply edge_rel_observe ] ] ].

Lemma edge_post_weaken d0 d inp0 inp r :
  edge_rel d0 d -> (length inp <= length inp0)%nat ->
  edge_post d inp r -> edge_post d0 inp0 r.
Proof.
  intros R L. destruct r as [[] d' inp'|d'|d']; simpl; auto.
  - intros (R' & L' & B). split; [eapply edge_rel_trans; eauto|].
    split; [lia|exact B].
  - intros R'. eapply edge_rel_trans; eauto.
Qed.

(** The loop never fails, assigns nothing but the scratch attributes, adds
    only Illegal-Jump-Edge annotations, and when it returns it has taken at
    least one answer and the expected edge (pattern 1) is matched. *)
Lemma wait_edge_post conds : forall n inp d, (length inp <= n)%nat ->
  edge_post d inp (wait_edge conds d inp).
Proof.
  induction n as [|n IH]; intros inp d Hn.
  - destruct inp; [|simpl in Hn; lia]. simpl. apply edge_rel_refl.
  - destruct inp as [|a1 inp1]; simpl wait_edge; [simpl; apply edge_rel_refl|].
    simpl in Hn.
    destruct (matched_bit 0 (observe a1 d)) eqn:B0.
    + destruct inp1 as [|a2 inp2].
      { simpl. edge_chain. }
      simpl in Hn.
      set (d2 := set_ss _ _).
      assert (R2 : edge_rel d d2) by (unfold d2; edge_chain).
      set (d4 := if matched_bit 0 (observe a2 d2) then _ else _).
      assert (R4 : edge_rel d d4).
      { unfold d4. destruct (matched_bit 0 (observe a2 d2)); edge_chain. }
      destruct (matched_bit 1 d4) eqn:B1.
      * simpl. split; [edge_chain|]. split; [lia|exact B1].
      * eapply edge_post_weaken; [exact R4| |apply IH; lia]. simpl; lia.
    + destruct (matched_bit 1 (observe a1 d)) eqn:B1.
      * simpl. split; [apply edge_rel_observe|]. split; [lia|exact B1].
      * eapply edge_post_weaken; [apply edge_rel_observe| |apply IH; lia].
        simpl; lia.
Qed.

Lemma edge_rel_touched d d' :
  edge_rel d d' ->
  exists ss' es' m' sn' l, d' = touched ss' es' m' sn' l d /\ Forall is_IJE l.
Proof.
  intros [C (l & S & F)].
  exists (ss d'), (es d'), (matched d'), (samplenum d'), l.
  split; [|exact F]. destruct d, d'; unfold ctx, touched in *; simpl in *.
  inversion C; subst. reflexivity.
Qed.

Lemma wait_edge_Done conds d inp u d' inp' :
  wait_edge conds d inp = Done u d' inp' ->
  exists ss' es' m' sn' l,
    d' = touched ss' es' m' sn' l d /\ Forall is_IJE l /\
    (length inp' < length inp)%nat /\
    truthy (Z.land m' (Z.shiftl 1 1)) = true.
Proof.
  intros H. pose proof (wait_edge_post conds (length inp) inp d (le_n _)) as P.
  rewrite H in P. destruct P as (R & L & B).
  destruct (edge_rel_touched _ _ R) as (a & b & c & e & l & -> & F).
  exists a, b, c, e, l. repeat split; auto.
Qed.

Lemma wait_edge_Eof conds d inp d' :
  wait_edge conds d inp = Eof d' ->
  exists ss' es' m' sn' l, d' = touched ss' es' m' sn' l d /\ Forall is_IJE l.
Proof.
  intros H. pose proof (wait_edge_post conds (length inp) inp d (le_n _)) as P.
  rewrite H in P. now apply edge_rel_touched.
Qed.

Lemma wait_edge_no_error conds d inp d' :
  wait_edge conds d inp <> AttributeError d'.
Proof.
  intros H. pose proof (wait_edge_post conds (length inp) inp d (le_n _)) as P.
  rewrite H in P. exact P.
Qed.

(** ** Python truth values *)

Lemma truthy_invert_false e : truthy (invert e) = false -> e = -1.
Proof.
  unfold truthy, invert. rewrite negb_false_iff, Z.eqb_eq.
  intros H. pose proof (Z.add_lnot_diag e). lia.
Qed.

Lemma truthy_invert_b2z b : truthy (invert (Z.b2z b)) = true.
Proof. destruct b; reflexivity. Qed.

Lemma IJE_live l : Forall is_IJE l -> Forall live l.
Proof.
  apply Forall_impl. intros a H. unfold live. rewrite H. reflexivity.
Qed.

(** ** Symbolic execution of one turn of the loop *)

#[local] Arguments Z.shiftl : simpl never.
#[local] Arguments Z.lor : simpl never.
#[local] Arguments Z.land : simpl never.
#[local] Arguments Z.lnot : simpl never.
#[local] Arguments Z.add : simpl never.
#[local] Arguments Z.sub : simpl never.
#[local] Arguments Z.mul : simpl never.
#[local] Arguments Z.eqb : simpl never.
#[local] Arguments Z.ltb : simpl never.

Ltac unfold_code :=
  cbv [decode_body decode_FIND_SSC decode_FIND_SLAVE_ADDRESS
       decode_FIND_COMMAND decode_FIND_BTEY_COUNT decode_FIND_ADDRESS
       decode_FIND_DATA decode_FIND_PARITY decode_FIND_BUS_PARK
       idle_bus_park SSC_found put_proto initBP init cmdset handle
       handle_BP handle_CMD handle_CMD_1 handle_CMD_2 handle_CMD_3
       handle_CMD_4 handle_CMD_tail parity_dispatch bind ret gets modify
       when attr wait].

Ltac edge_cases :=
  match goal with
  | H : wait_edge _ _ _ = Done _ _ _ |- _ =>
      apply wait_edge_Done in H;
      destruct H as (? & ? & ? & ? & ? & -> & ? & ? & ?)
  | H : wait_edge _ _ _ = Eof _ |- _ =>
      apply wait_edge_Eof in H;
      destruct H as (? & ? & ? & ? & ? & -> & ?)
  | H : wait_edge _ _ _ = AttributeError _ |- _ =>
      exfalso; exact (wait_edge_no_error _ _ _ _ H)
  end.

Ltac bool_props :=
  repeat match goal with
  | H : truthy (invert _) = false |- _ => apply truthy_invert_false in H
  | H : (_ =? _) = true |- _ => apply Z.eqb_eq in H
  | H : (_ =? _) = false |- _ => apply Z.eqb_neq in H
  | H : (_ <? _) = true |- _ => apply Z.ltb_lt in H
  | H : (_ <? _) = false |- _ => apply Z.ltb_ge in H
  end.

Ltac live_sink :=
  repeat first
    [ assumption
    | apply Forall_app; split
    | apply IJE_live; assumption
    | apply Forall_cons; [reflexivity|]
    | apply Forall_nil ].

(** Records are kept in constructor form, every attribute spelled out. *)
Ltac recnorm :=
  cbv beta iota zeta delta
    [touched observe putx set_ss set_es set_bitcount set_databyte set_state
     set_extended set_cmdkey set_BC set_Pcount set_BPcount set_ADDcount
     set_BPss set_SSCs set_Pes set_DATAss set_matched set_samplenum set_sink
     set_samplerate address_format samplerate ss es bitcount databyte state
     extended cmdkey BC Pcount BPcount ADDcount BPss SSCs Pes DATAss matched
     samplenum sink].

(** Case analysis along the control flow: every test and every wait. *)
Ltac crunch :=
  repeat first
    [ progress recnorm
    | progress simpl
    | rewrite truthy_invert_b2z
    | progress change (truthy 0) with false
    | progress change (truthy 1) with true
    | edge_cases
    | match goal with
      | |- context [match ?x with _ => _ end] =>
          lazymatch x with
          | context [match _ with _ => _ end] => fail
          | _ => destruct x eqn:?
          end
      end ].

Ltac finish :=
  unfold Inv, Safe; recnorm; simpl; bool_props;
  repeat match goal with
         | |- _ /\ _ => split
         | |- Forall live _ => solve [live_sink]
         end;
  try solve [ lia | discriminate | tauto
            | intuition (try lia; try discriminate) ].

(** ** The invariant *)

Lemma body_Inv d inp : Inv d -> Safe d -> body_post inp (decode_body d inp).
Proof.
  intros I S.
  destruct d as [fmt rate ss0 es0 bc db st ext ck BC0 Pc BPc ADDc BPss0
                 SSCs0 Pes0 Dss m sn snk].
  unfold Inv, Safe in I, S. simpl in I, S.
  destruct S as (_ & _ & _ & _ & S).
  destruct st, ck as [|[]]; try (exfalso; tauto).
  all: unfold_code; unfold body_post; crunch; finish.
Qed.

Lemma new_Decoder_Inv fmt : Inv (new_Decoder fmt) /\ Safe (new_Decoder fmt).
Proof.
  unfold Inv, Safe; simpl. repeat split; auto; try lia; try discriminate.
Qed.

Lemma turns_Inv n : forall d inp d' inp',
  Inv d -> Safe d -> turns n d inp = Done tt d' inp' ->
  Inv d' /\ Safe d' /\ (length inp' <= length inp)%nat.
Proof.
  induction n as [|n IH]; simpl; intros d inp d' inp' I S H.
  - inversion H; subst. auto.
  - unfold bind in H. pose proof (body_Inv d inp I S) as B.
    destruct (decode_body d inp) as [[] d1 inp1|d1|d1]; try discriminate.
    destruct B as (I1 & S1 & L1).
    destruct (IH _ _ _ _ I1 S1 H) as (I' & S' & L').
    split; [exact I'|]. split; [exact S'|]. lia.
Qed.

Lemma reachable_Inv fmt n inp d inp' :
  turns n (new_Decoder fmt) inp = Done tt d inp' -> Inv d /\ Safe d.
Proof.
  intros H. destruct (new_Decoder_Inv fmt) as [I S].
  destruct (turns_Inv n _ _ _ _ I S H) as (I' & S' & _). auto.
Qed.

Lemma decode_Safe fuel : forall d inp,
  Inv d -> Safe d ->
  Safe (outcome_decoder (decode fuel d inp)) /\
  (forall d', decode fuel d inp <> Crashed d') /\
  ((length inp < fuel)%nat -> exists d', decode fuel d inp = Stopped d').
Proof.
  induction fuel as [|fuel IH]; simpl; intros d inp I S.
  - split; [exact S|]. split; [discriminate|lia].
  - pose proof (body_Inv d inp I S) as B.
    destruct (decode_body d inp) as [[] d1 inp1|d1|d1]; simpl in B.
    + destruct B as (I1 & S1 & L1).
      destruct (IH d1 inp1 I1 S1) as (A1 & A2 & A3).
      split; [exact A1|]. split; [exact A2|]. intros L. apply A3. lia.
    + split; [exact B|]. split; [discriminate|]. eauto.
    + contradiction.
Qed.

(** ** Fields *)

Lemma field_turn_aux d inp cmd key :
  field d = Some (cmd, key) -> 0 <= bitcount d ->
  field_turn_post d inp cmd key (decode_body d inp).
Proof.
  destruct d as [fmt rate ss0 es0 bc db st ext ck BC0 Pc BPc ADDc BPss0
                 SSCs0 Pes0 Dss m sn snk].
  unfold field. simpl. intros F B.
  destruct st; try discriminate; injection F as <- <-.
  all: unfold_code; unfold field_turn_post; crunch; try exact I.
  all: eexists; eexists; split; [reflexivity|].
  all: bool_props; try (exfalso; lia).
  all: rewrite <- ?app_assoc.
  all: repeat match goal with
         | |- _ /\ _ => split
         | |- exists _, _ => eexists
         end;
       try solve [ reflexivity | assumption | intros; lia | intros; congruence ].

Qed.

Lemma testbit_push_0 acc b : Z.testbit (push acc b) 0 = b.
Proof.
  unfold push. rewrite Z.lor_spec, Z.shiftl_spec by lia.
  rewrite Z.testbit_neg_r by lia. destruct b; reflexivity.
Qed.

Lemma testbit_push_succ acc b i :
  0 <= i -> Z.testbit (push acc b) (i + 1) = Z.testbit acc i.
Proof.
  intros Hi. unfold push. rewrite Z.lor_spec, Z.shiftl_spec by lia.
  replace (i + 1 - 1) with i by lia.
  assert (E : Z.testbit (Z.b2z b) (i + 1) = false).
  { destruct b; simpl.
    - replace (i + 1) with (Z.succ i) by lia. rewrite Z.bits_above_log2; simpl; auto; lia.
    - apply Z.testbit_0_l. }
  rewrite E. apply orb_false_r.
Qed.

Lemma testbit_accumulate bits : forall acc i,
  0 <= i ->
  Z.testbit (accumulate acc bits) (i + Z.of_nat (length bits)) = Z.testbit acc i.
Proof.
  induction bits as [|b bits IH]; intros acc i Hi; simpl.
  - f_equal. lia.
  - change (accumulate (push acc b) bits) with (fold_left push bits (push acc b)).
    replace (i + Z.pos (Pos.of_succ_nat (length bits)))
      with ((i + 1) + Z.of_nat (length bits)) by lia.
    unfold accumulate in IH. rewrite IH by lia. now apply testbit_push_succ.
Qed.

Lemma encode_accumulate bits : forall acc,
  encode (length bits) (accumulate acc bits) = bits.
Proof.
  induction bits as [|b bits IH]; intros acc; [reflexivity|].
  simpl length. cbn [encode]. f_equal.
  - change (accumulate acc (b :: bits)) with (accumulate (push acc b) bits).
    pose proof (testbit_accumulate bits (push acc b) 0 (Z.le_refl 0)) as T.
    rewrite Z.add_0_l in T. rewrite T. apply testbit_push_0.
  - apply IH.
Qed.

Lemma field_stable d d' :
  state d' = state d -> cmdkey d' = cmdkey d -> BC d' = BC d ->
  field d' = field d.
Proof. unfold field. intros -> -> ->. reflexivity. Qed.

(** While fewer than [key] bits are in, every turn shifts one bit in and
    the state stays. *)
Lemma field_pending cmd key : forall n d inp d' inp',
  field d = Some (cmd, key) -> 0 <= bitcount d ->
  bitcount d + Z.of_nat n <= key ->
  turns n d inp = Done tt d' inp' ->
  field d' = Some (cmd, key) /\ state d' = state d /\
  bitcount d' = bitcount d + Z.of_nat n /\
  databyte d' = accumulate (databyte d) (sampled n d inp) /\
  length (sampled n d inp) = n /\
  exists l, sink d' = sink d ++ l /\ Forall is_IJE l.
Proof.
  induction n as [|n IH]; intros d inp d' inp' F B K T.
  - simpl in T. injection T as <- <-. simpl.
    repeat split; auto; try lia. exists []. now rewrite app_nil_r.
  - cbn [turns] in T. unfold bind in T.
    pose proof (field_turn_aux d inp cmd key F B) as P.
    destruct (decode_body d inp) as [[] d1 inp1|d1|d1] eqn:E; try discriminate.
    simpl in P. destruct P as (a & rest & -> & P).
    assert (Hlt : (bitcount d <? key) = true) by (apply Z.ltb_lt; lia).
    rewrite Hlt in P.
    destruct P as (S1 & C1 & BC1 & B1 & D1 & l1 & K1 & F1).
    assert (Fd1 : field d1 = Some (cmd, key))
      by (rewrite (field_stable d d1) by assumption; exact F).
    destruct (IH d1 inp1 d' inp' Fd1 ltac:(lia) ltac:(lia) T)
      as (F' & S' & B' & D' & L' & l' & K' & Fl').
    cbn [sampled]. rewrite E.
    split; [exact F'|]. split; [congruence|]. split; [lia|].
    split; [rewrite D', D1; reflexivity|].
    split; [cbn [length]; rewrite L'; reflexivity|].
    exists (l1 ++ l'). rewrite K', K1, app_assoc. split; [reflexivity|].
    apply Forall_app; auto.
Qed.

(** The turn that finds [bitcount = key] shifts the last bit in and emits
    the field: [key + 1] bits in all. *)
Lemma field_complete cmd key n d inp d' inp' :
  field d = Some (cmd, key) -> 0 <= bitcount d ->
  bitcount d + Z.of_nat n = key ->
  turns (S n) d inp = Done tt d' inp' ->
  length (sampled (S n) d inp) = S n /\
  bitcount d' = 0 /\ databyte d' = 0 /\
  (state d <> FIND_PARITY -> state d' = field_next (state d)) /\
  exists l x, sink d' = sink d ++ l ++ [x] /\ Forall is_IJE l /\
    ann_index x = proto_0 cmd /\
    ann_texts x =
      field_texts cmd key (accumulate (databyte d) (sampled (S n) d inp)).
Proof.
  revert d inp.
  induction n as [|n IH]; intros d inp F B K T.
  - cbn [turns] in T. unfold bind in T.
    pose proof (field_turn_aux d inp cmd key F B) as P.
    destruct (decode_body d inp) as [[] d1 inp1|d1|d1] eqn:E; try discriminate.
    simpl in T. injection T as <- <-.
    simpl in P. destruct P as (a & rest & -> & P).
    assert (Hlt : (bitcount d <? key) = false) by (apply Z.ltb_ge; lia).
    rewrite Hlt in P.
    destruct P as (B1 & D1 & S1 & l & x & K1 & F1 & I1 & T1 & _).
    cbn [sampled]. rewrite E. simpl.
    repeat split; auto. exists l, x. auto.
  - cbn [turns] in T. unfold bind in T.
    pose proof (field_turn_aux d inp cmd key F B) as P.
    destruct (decode_body d inp) as [[] d1 inp1|d1|d1] eqn:E; try discriminate.
    simpl in P. destruct P as (a & rest & -> & P).
    assert (Hlt : (bitcount d <? key) = true) by (apply Z.ltb_lt; lia).
    rewrite Hlt in P.
    destruct P as (S1 & C1 & BC1 & B1 & D1 & l1 & K1 & F1).
    assert (Fd1 : field d1 = Some (cmd, key))
      by (rewrite (field_stable d d1) by assumption; exact F).
    destruct (IH d1 inp1 Fd1 ltac:(lia) ltac:(lia) T)
      as (L' & B' & D' & S' & l' & x & K' & Fl' & I' & T').
    change (sampled (S (S n)) d (a :: rest))
      with (ans_sdata a :: match decode_body d (a :: rest) with
                          | Done _ d2 inp2 => sampled (S n) d2 inp2
                          | _ => []
                          end).
    rewrite E.
    split; [cbn [length]; rewrite L'; reflexivity|].
    split; [exact B'|]. split; [exact D'|].
    split; [rewrite <- S1; exact S'|].
    exists (l1 ++ l'), x. rewrite K', K1, <- !app_assoc.
    split; [reflexivity|]. split; [apply Forall_app; auto|].
    split; [exact I'|]. rewrite T', D1. reflexivity.
Qed.

(** ** Counters and Bus Park *)

Lemma last_shape (snk s l : list Annotation) (y : Annotation)
  (Q : Annotation -> Prop) :
  s = snk ++ l -> Forall is_IJE l -> Q y ->
  exists l' x, s ++ [y] = snk ++ l' ++ [x] /\ Forall is_IJE l' /\ Q x.
Proof.
  intros -> F H. exists l, y. rewrite app_assoc. auto.
Qed.

Ltac IJE_list :=
  simpl;
  repeat first [ assumption | apply Forall_nil
               | apply Forall_cons; [reflexivity|]
               | apply Forall_app; split ].

Ltac sink_last :=
  eapply last_shape;
  [ first [ symmetry; apply app_nil_r | rewrite <- ?app_assoc; reflexivity ]
  | IJE_list
  | try reflexivity ].

Lemma body_counters d inp : Inv d -> counters_post d (decode_body d inp).
Proof.
  intros I.
  destruct d as [fmt rate ss0 es0 bc db st ext ck BC0 Pc BPc ADDc BPss0
                 SSCs0 Pes0 Dss m sn snk].
  unfold Inv in I. simpl in I.
  destruct st, ck as [|[]]; try (exfalso; tauto).
  all: unfold_code; unfold counters_post, final_park, counters_le,
         counters_zero, result_decoder; crunch; bool_props.
  all: try solve [left; repeat split; lia].
  all: right; split; [reflexivity|]; split; [discriminate|];
       split; [reflexivity|]; split; [reflexivity|];
       split; [repeat split; reflexivity|]; solve [sink_last].
Qed.

Lemma bus_park_turn d inp :
  state d = FIND_BUS_PARK -> cmdkey d <> NULL ->
  bus_park_post d (decode_body d inp).
Proof.
  destruct d as [fmt rate ss0 es0 bc db st ext ck BC0 Pc BPc ADDc BPss0
                 SSCs0 Pes0 Dss m sn snk].
  simpl. intros -> K. destruct ck as [|c]; [contradiction|].
  unfold_code; unfold bus_park_post, read_family, context_kept,
    context_reset, matched_bit.
  destruct c; crunch; try exact I; try discriminate.
  all: repeat match goal with
         | |- _ /\ _ => split
         end; try reflexivity.
  all: try solve [sink_last].
  all: try solve [ eexists; split;
                   [ first [ symmetry; apply app_nil_r
                           | rewrite <- ?app_assoc; reflexivity ]
                   | IJE_list ] ].
Qed.

(** ** Register 0 Write and command classification *)

Lemma IJE_not (cmd : Proto) l :
  proto_0 cmd <> proto_0 K_IJE -> Forall is_IJE l ->
  Forall (fun x => ~ has_index cmd x) l.
Proof.
  intros N. apply Forall_impl. unfold is_IJE, has_index. intros a -> E.
  apply N. symmetry. exact E.
Qed.

Ltac no_address :=
  simpl;
  repeat first
    [ apply Forall_nil
    | apply Forall_cons; [unfold has_index; simpl; discriminate|]
    | apply Forall_app; split
    | apply IJE_not; [discriminate | assumption] ].

Lemma R0W_turn d inp :
  Inv d -> cmdkey d = Key K_R0W ->
  state d <> FIND_ADDRESS /\ R0W_post d (decode_body d inp).
Proof.
  intros I.
  destruct d as [fmt rate ss0 es0 bc db st ext ck BC0 Pc BPc ADDc BPss0
                 SSCs0 Pes0 Dss m sn snk].
  unfold Inv in I. simpl in I. simpl. intros ->.
  destruct st; try (exfalso; tauto); (split; [discriminate|]).
  all: unfold_code; unfold R0W_post, result_decoder; crunch; bool_props.
  all: try (exfalso; lia).
  all: split; [discriminate|].
  all: split;
    [ eexists; split;
      [ first [ symmetry; apply app_nil_r | rewrite <- ?app_assoc; reflexivity ]
      | no_address ] |].
  all: split; [intros; try discriminate; auto|].
  all: intros; try discriminate; try reflexivity.
  all: split; [reflexivity|]; split; [lia|]; sink_last.
Qed.

Lemma cmdset_spec cmd st d inp : cmdset_post cmd st d (cmdset cmd st d inp).
Proof.
  destruct d as [fmt rate ss0 es0 bc db st0 ext ck BC0 Pc BPc ADDc BPss0
                 SSCs0 Pes0 Dss m sn snk].
  unfold_code; unfold cmdset_post; crunch; auto.
  repeat split. rewrite <- app_assoc. eexists; eexists.
  split; [reflexivity|]. split; [assumption|]. split; reflexivity.
Qed.

(** At bit index 2 the guard [~self.extended] lets every decoder through
    whose flag is 0 or 1. *)
Lemma handle_CMD_bit2 sclk sdata d inp :
  bitcount d = 2 -> extended d = 0 \/ extended d = 1 ->
  handle_CMD sclk sdata d inp =
  cmdset (if sdata then K_RR else K_RW) FIND_ADDRESS d inp.
Proof.
  destruct d as [fmt rate ss0 es0 bc db st0 ext ck BC0 Pc BPc ADDc BPss0
                 SSCs0 Pes0 Dss m sn snk].
  simpl. intros -> E.
  cbv [handle_CMD handle_CMD_1 handle_CMD_2 bind gets when ret modify
       bitcount extended Z.eqb Pos.eqb].
  destruct E as [-> | ->]; destruct sdata; reflexivity.
Qed.

(** At bit index 0 a high data line selects Register 0 Write. *)
Lemma handle_CMD_bit0_high sclk d inp :
  bitcount d = 0 ->
  handle_CMD sclk true d inp =
  cmdset K_R0W FIND_DATA (set_DATAss (Some (samplenum d)) d) inp.
Proof.
  intros B. unfold handle_CMD, bind, gets, modify. rewrite B. reflexivity.
Qed.

(** ** The decoder never reads the [address_format] option *)

Ltac respects :=
  let H := fresh "H" in
  intros [] [] H; unfold same_but_format, erase in *; simpl in *;
  injection H; intros; subst;
  repeat match goal with
         | |- context [if ?c then _ else _] => destruct c
         end;
  reflexivity.

Lemma blind_ret {A} (a : A) : blind (Hosted.ret a).
Proof. intros d1 d2 src H. simpl. auto. Qed.

Lemma blind_bind {A B} (m : Hosted.M A) (k : A -> Hosted.M B) :
  blind m -> (forall a, blind (k a)) -> blind (Hosted.bind m k).
Proof.
  intros Hm Hk d1 d2 src H. unfold Hosted.bind.
  specialize (Hm d1 d2 src H).
  destruct (m d1 src) as [a1 e1 i1|e1|e1], (m d2 src) as [a2 e2 i2|e2|e2];
    simpl in Hm; try contradiction; auto.
  destruct Hm as (-> & Hd & ->). apply Hk. exact Hd.
Qed.

Lemma blind_gets {A} (f : Decoder -> A) :
  (forall d1 d2, same_but_format d1 d2 -> f d1 = f d2) ->
  blind (Hosted.gets f).
Proof. intros Hf d1 d2 src H. simpl. auto. Qed.

Lemma blind_modify (f : Decoder -> Decoder) :
  (forall d1 d2, same_but_format d1 d2 -> same_but_format (f d1) (f d2)) ->
  blind (Hosted.modify f).
Proof. intros Hf d1 d2 src H. simpl. auto. Qed.

Lemma blind_when b (m : Hosted.M unit) : blind m -> blind (Hosted.when b m).
Proof. intros Hm. destruct b; [exact Hm | apply blind_ret]. Qed.

Lemma blind_attr {A} (f : Decoder -> option A) :
  (forall d1 d2, same_but_format d1 d2 -> f d1 = f d2) ->
  blind (Hosted.attr f).
Proof.
  intros Hf d1 d2 src H. unfold Hosted.attr. rewrite (Hf d1 d2 H).
  destruct (f d2); simpl; auto.
Qed.

Lemma same_observe a d1 d2 :
  same_but_format d1 d2 -> same_but_format (observe a d1) (observe a d2).
Proof. revert d1 d2. respects. Qed.

(** Both runs hand the source the same conditions, so it gives both the
    same answer and goes on as the same source. *)
Lemma blind_wait conds : blind (Hosted.wait conds).
Proof.
  intros d1 d2 src H. unfold Hosted.wait.
  destruct src as [|reply rest]; simpl; auto.
  destruct (reply conds); simpl; auto.
  repeat split. now apply same_observe.
Qed.

Lemma same_edge_ss a d1 d2 :
  same_but_format d1 d2 ->
  same_but_format (set_ss (samplenum (observe a d1)) (observe a d1))
                  (set_ss (samplenum (observe a d2)) (observe a d2)).
Proof. revert d1 d2. respects. Qed.

Lemma same_edge_IJE d1 d2 :
  same_but_format d1 d2 ->
  same_but_format
    (putx (proto_0 K_IJE) (proto_texts K_IJE) (set_es (samplenum d1) d1))
    (putx (proto_0 K_IJE) (proto_texts K_IJE) (set_es (samplenum d2) d2)).
Proof. revert d1 d2. respects. Qed.

Lemma same_matched_bit k d1 d2 :
  same_but_format d1 d2 -> matched_bit k d1 = matched_bit k d2.
Proof. revert d1 d2. respects. Qed.

(** The loop takes up to two answers a turn, so the induction carries the
    statement for the sources one answer further on as well. *)
Lemma wait_edge_blind_sub conds : forall src,
  (forall d1 d2, same_but_format d1 d2 ->
     result_same (Hosted.wait_edge conds d1 src)
                 (Hosted.wait_edge conds d2 src)) /\
  (forall reply rest, src = Serve reply rest ->
     forall c d1 d2, same_but_format d1 d2 ->
       result_same (Hosted.wait_edge conds d1 (rest c))
                   (Hosted.wait_edge conds d2 (rest c))).
Proof.
  induction src as [|reply1 rest1 IH].
  - split; [intros d1 d2 H; exact H | discriminate].
  - split.
    2:{ intros reply rest E c. injection E as _ <-. apply (IH c). }
    intros d1 d2 H. cbn [Hosted.wait_edge].
    destruct (reply1 conds) as [a1|]; [|exact H].
    pose proof (same_observe a1 _ _ H) as H1.
    rewrite (same_matched_bit 0 _ _ H1), (same_matched_bit 1 _ _ H1).
    destruct (matched_bit 0 (observe a1 d2)).
    + pose proof (same_edge_ss a1 _ _ H) as H2.
      destruct (IH conds) as [_ IH2].
      destruct (rest1 conds) as [|reply2 rest2]; [exact H2|].
      specialize (IH2 reply2 rest2 eq_refl conds).
      destruct (reply2 conds) as [a2|]; [|exact H2].
      pose proof (same_observe a2 _ _ H2) as H3.
      rewrite (same_matched_bit 0 _ _ H3).
      set (e1 := observe a2 (set_ss _ (observe a1 d1))) in *.
      set (e2 := observe a2 (set_ss _ (observe a1 d2))) in *.
      assert (H4 : same_but_format
                (if matched_bit 0 e2
                 then putx (proto_0 K_IJE) (proto_texts K_IJE)
                        (set_es (samplenum e1) e1) else e1)
                (if matched_bit 0 e2
                 then putx (proto_0 K_IJE) (proto_texts K_IJE)
                        (set_es (samplenum e2) e2) else e2)).
      { destruct (matched_bit 0 e2); [now apply same_edge_IJE | exact H3]. }
      revert H4.
      generalize (if matched_bit 0 e2
                  then putx (proto_0 K_IJE) (proto_texts K_IJE)
                         (set_es (samplenum e1) e1) else e1).
      generalize (if matched_bit 0 e2
                  then putx (proto_0 K_IJE) (proto_texts K_IJE)
                         (set_es (samplenum e2) e2) else e2).
      intros f2 f1 H4. rewrite (same_matched_bit 1 _ _ H4).
      destruct (matched_bit 1 f2).
      * simpl. repeat split. now apply same_edge_IJE.
      * apply IH2. exact H4.
    + destruct (matched_bit 1 (observe a1 d2)).
      * simpl. repeat split. exact H1.
      * apply (IH conds). exact H1.
Qed.

Lemma blind_wait_edge conds : blind (Hosted.wait_edge conds).
Proof. intros d1 d2 src H. now apply wait_edge_blind_sub. Qed.

Create HintDb blind.
#[local] Hint Resolve blind_ret blind_wait blind_wait_edge : blind.

Ltac blind_step :=
  first
    [ apply blind_bind; [|intros ?]
    | apply blind_ret
    | apply blind_wait
    | apply blind_wait_edge
    | apply blind_when
    | apply blind_gets; solve [respects]
    | apply blind_attr; solve [respects]
    | apply blind_modify; solve [respects]
    | solve [auto with blind]
    | match goal with
      | |- blind (if ?b then _ else _) => destruct b
      | |- blind (match ?x with _ => _ end) => destruct x
      end ].

Ltac blind_auto := repeat blind_step.

Lemma blind_handle_BP cmd st : blind (Hosted.handle_BP cmd st).
Proof. unfold Hosted.handle_BP. blind_auto. Qed.

Lemma blind_handle sclk sdata cmd st key :
  blind (Hosted.handle sclk sdata cmd st key).
Proof. unfold Hosted.handle. blind_auto. Qed.

Lemma blind_init : blind Hosted.init.
Proof. unfold Hosted.init. blind_auto. Qed.

Lemma blind_cmdset cmd st : blind (Hosted.cmdset cmd st).
Proof. unfold Hosted.cmdset. blind_auto. Qed.

#[local] Hint Resolve blind_handle_BP blind_handle blind_init blind_cmdset
  : blind.

Lemma blind_handle_CMD sclk sdata : blind (Hosted.handle_CMD sclk sdata).
Proof.
  unfold Hosted.handle_CMD, Hosted.handle_CMD_1, Hosted.handle_CMD_2,
    Hosted.handle_CMD_3, Hosted.handle_CMD_4, Hosted.handle_CMD_tail.
  blind_auto.
Qed.

Lemma blind_initBP sclk sdata st key :
  blind (Hosted.initBP sclk sdata st key).
Proof. unfold Hosted.initBP. blind_auto. Qed.

#[local] Hint Resolve blind_handle_CMD blind_initBP : blind.

Lemma same_parity_dispatch d1 d2 :
  same_but_format d1 d2 ->
  same_but_format (parity_dispatch d1) (parity_dispatch d2).
Proof.
  destruct d1, d2. unfold same_but_format, erase, parity_dispatch.
  simpl. intros H. injection H; intros; subst.
  repeat match goal with
         | |- context [if ?c then _ else _] => destruct c
         end; reflexivity.
Qed.

Lemma blind_parity_dispatch : blind (Hosted.modify parity_dispatch).
Proof. apply blind_modify. exact same_parity_dispatch. Qed.

#[local] Hint Resolve blind_parity_dispatch : blind.

Lemma blind_decode_body : blind Hosted.decode_body.
Proof.
  unfold Hosted.decode_body, Hosted.decode_FIND_SSC,
    Hosted.decode_FIND_SLAVE_ADDRESS, Hosted.decode_FIND_COMMAND,
    Hosted.decode_FIND_BTEY_COUNT, Hosted.decode_FIND_ADDRESS,
    Hosted.decode_FIND_DATA, Hosted.decode_FIND_PARITY,
    Hosted.decode_FIND_BUS_PARK, Hosted.idle_bus_park, Hosted.SSC_found,
    Hosted.put_proto.
  blind_auto.
Qed.

Lemma decode_blind fuel : forall d1 d2 src,
  same_but_format d1 d2 ->
  outcome_same (Hosted.decode fuel d1 src) (Hosted.decode fuel d2 src).
Proof.
  induction fuel as [|fuel IH]; intros d1 d2 src H; simpl; [exact H|].
  pose proof (blind_decode_body d1 d2 src H) as B.
  destruct (Hosted.decode_body d1 src) as [[] e1 i1|e1|e1],
           (Hosted.decode_body d2 src) as [[] e2 i2|e2|e2];
    simpl in B; try contradiction; auto.
  destruct B as (_ & Hd & ->). apply IH. exact Hd.
Qed.

Lemma same_sink d1 d2 : same_but_format d1 d2 -> sink d1 = sink d2.
Proof. revert d1 d2. respects. Qed.

(** ** Answers replayed: the two models agree *)

Lemma agree_ret {A} (a : A) : agree (ret a) (Hosted.ret a).
Proof. intros d inp. simpl. auto. Qed.

Lemma agree_bind {A B} (m : M A) (m' : Hosted.M A) (k : A -> M B)
  (k' : A -> Hosted.M B) :
  agree m m' -> (forall a, agree (k a) (k' a)) ->
  agree (bind m k) (Hosted.bind m' k').
Proof.
  intros Hm Hk d inp. unfold bind, Hosted.bind. specialize (Hm d inp).
  destruct (m d inp) as [a1 e1 i1|e1|e1],
           (m' d (replay inp)) as [a2 e2 i2|e2|e2];
    simpl in Hm; try contradiction; simpl; auto.
  destruct Hm as (<- & <- & ->). apply Hk.
Qed.

Lemma agree_gets {A} (f : Decoder -> A) : agree (gets f) (Hosted.gets f).
Proof. intros d inp. simpl. auto. Qed.

Lemma agree_modify (f : Decoder -> Decoder) :
  agree (modify f) (Hosted.modify f).
Proof. intros d inp. simpl. auto. Qed.

Lemma agree_when b (m : M unit) (m' : Hosted.M unit) :
  agree m m' -> agree (when b m) (Hosted.when b m').
Proof. intros Hm. destruct b; [exact Hm | apply agree_ret]. Qed.

Lemma agree_attr {A} (f : Decoder -> option A) :
  agree (attr f) (Hosted.attr f).
Proof.
  intros d inp. unfold attr, Hosted.attr. destruct (f d); simpl; auto.
Qed.

Lemma agree_wait conds : agree (wait conds) (Hosted.wait conds).
Proof. intros d [|a inp]; simpl; auto. Qed.

Lemma wait_edge_agree_n conds : forall n inp d,
  (length inp <= n)%nat ->
  replayed (wait_edge conds d inp) (Hosted.wait_edge conds d (replay inp)).
Proof.
  induction n as [|n IH]; intros inp d L.
  - destruct inp; [reflexivity | simpl in L; lia].
  - destruct inp as [|a1 inp1]; [reflexivity|]. simpl in L.
    cbn [wait_edge Hosted.wait_edge replay].
    destruct (matched_bit 0 (observe a1 d)).
    + destruct inp1 as [|a2 inp2]; [reflexivity|]. simpl in L.
      cbn [replay].
      match goal with
      | |- context [matched_bit 1 ?x] => generalize x; intros f
      end.
      destruct (matched_bit 1 f).
      * simpl. auto.
      * apply IH. lia.
    + destruct (matched_bit 1 (observe a1 d)).
      * simpl. auto.
      * apply IH. lia.
Qed.

Lemma agree_wait_edge conds :
  agree (wait_edge conds) (Hosted.wait_edge conds).
Proof. intros d inp. now apply (wait_edge_agree_n conds (length inp)). Qed.

Ltac agree_step :=
  first
    [ apply agree_bind; [|intros ?]
    | apply agree_ret
    | apply agree_wait
    | apply agree_wait_edge
    | apply agree_when
    | apply agree_gets
    | apply agree_attr
    | apply agree_modify
    | match goal with
      | |- agree (if ?b then _ else _) _ => destruct b
      | |- agree (match ?x with _ => _ end) _ => destruct x
      end ].

Ltac agree_auto := repeat agree_step.

Lemma agree_decode_body : agree decode_body Hosted.decode_body.
Proof.
  unfold decode_body, decode_FIND_SSC, decode_FIND_SLAVE_ADDRESS,
    decode_FIND_COMMAND, decode_FIND_BTEY_COUNT, decode_FIND_ADDRESS,
    decode_FIND_DATA, decode_FIND_PARITY, decode_FIND_BUS_PARK,
    idle_bus_park, SSC_found, put_proto, initBP, handle_CMD, handle_CMD_1,
    handle_CMD_2, handle_CMD_3, handle_CMD_4, handle_CMD_tail, cmdset,
    init, handle, handle_BP.
  unfold Hosted.decode_body, Hosted.decode_FIND_SSC,
    Hosted.decode_FIND_SLAVE_ADDRESS, Hosted.decode_FIND_COMMAND,
    Hosted.decode_FIND_BTEY_COUNT, Hosted.decode_FIND_ADDRESS,
    Hosted.decode_FIND_DATA, Hosted.decode_FIND_PARITY,
    Hosted.decode_FIND_BUS_PARK, Hosted.idle_bus_park, Hosted.SSC_found,
    Hosted.put_proto, Hosted.initBP, Hosted.handle_CMD,
    Hosted.handle_CMD_1, Hosted.handle_CMD_2, Hosted.handle_CMD_3,
    Hosted.handle_CMD_4, Hosted.handle_CMD_tail, Hosted.cmdset,
    Hosted.init, Hosted.handle, Hosted.handle_BP.
  agree_auto.
Qed.

(** On a source that replays a list of answers, the run over the source
    is the run over the list. *)
Lemma decode_replay fuel : forall d inp,
  Hosted.decode fuel d (replay inp) = decode fuel d inp.
Proof.
  induction fuel as [|fuel IH]; intros d inp; simpl; [reflexivity|].
  pose proof (agree_decode_body d inp) as B.
  destruct (decode_body d inp) as [[] e1 i1|e1|e1],
           (Hosted.decode_body d (replay inp)) as [[] e2 i2|e2|e2];
    simpl in B; try contradiction; try congruence.
  destruct B as (_ & <- & ->). apply IH.
Qed.

(** * The claims *)

Lemma decode_body_FIND_COMMAND d a rest :
  state d = FIND_COMMAND ->
  decode_body d (a :: rest) =
  handle_CMD (ans_sclk a) (ans_sdata a) (observe a d) rest.
Proof.
  intros S. unfold decode_body, bind, gets. rewrite S. reflexivity.
Qed.

(** C1. Whenever a run reaches command bit index 2 (state FIND COMMAND with
    [bitcount = 2], which needs command bit 0 to be 0), the extended flag
    is 0 or 1, [~self.extended] is truthy for both values, and the turn is
    exactly [cmdset] of Register Read (data high) or Register Write (data
    low) with next state FIND ADDRESS, whatever command bit 1 was. *)
Theorem C1_complement_guard_always_true fmt inp0 n d a rest :
  turns n (new_Decoder fmt) inp0 = Done tt d (a :: rest) ->
  state d = FIND_COMMAND -> bitcount d = 2 ->
  truthy (invert 0) = true /\ truthy (invert 1) = true /\
  (extended d = 0 \/ extended d = 1) /\
  decode_body d (a :: rest) =
    cmdset (if ans_sdata a then K_RR else K_RW) FIND_ADDRESS
      (observe a d) rest /\
  forall d' rest',
    decode_body d (a :: rest) = Done tt d' rest' ->
    cmdkey d' = Key (if ans_sdata a then K_RR else K_RW) /\
    state d' = FIND_ADDRESS.
Proof.
  intros T S B.
  destruct (reachable_Inv _ _ _ _ _ T) as [I _].
  assert (E : extended d = 0 \/ extended d = 1).
  { unfold Inv in I. rewrite S in I.
    destruct I as (_ & _ & _ & _ & _ & I).
    destruct (cmdkey d); [|contradiction].
    destruct I as (_ & _ & _ & [I | [I | [_ I]]]); [lia | lia | exact I]. }
  assert (Q : decode_body d (a :: rest) =
              cmdset (if ans_sdata a then K_RR else K_RW) FIND_ADDRESS
                (observe a d) rest).
  { rewrite decode_body_FIND_COMMAND by exact S.
    apply handle_CMD_bit2; [exact B | exact E]. }
  split; [reflexivity|]. split; [reflexivity|]. split; [exact E|].
  split; [exact Q|].
  intros d' rest' H. rewrite Q in H.
  pose proof (cmdset_spec (if ans_sdata a then K_RR else K_RW) FIND_ADDRESS
                (observe a d) rest) as P.
  rewrite H in P. destruct P as (K & St & _). auto.
Qed.

Lemma C1_complement_guard_always_true_witness :
  turns 8 (new_Decoder shifted) rw_trace =
    Done tt (after 8 shifted rw_trace)
      (mkAnswer 1 100 true false :: tl (unread 8 shifted rw_trace)) /\
  extended (after 8 shifted rw_trace) = 0 /\
  decode_body (after 8 shifted rw_trace)
    (mkAnswer 1 100 true false :: tl (unread 8 shifted rw_trace)) =
  cmdset K_RW FIND_ADDRESS
    (observe (mkAnswer 1 100 true false) (after 8 shifted rw_trace))
    (tl (unread 8 shifted rw_trace)).
Proof.
  split; [vm_compute; reflexivity|].
  split; [vm_compute; reflexivity|].
  apply (C1_complement_guard_always_true shifted rw_trace 8
           (after 8 shifted rw_trace) (mkAnswer 1 100 true false)
           (tl (unread 8 shifted rw_trace))).
  - vm_compute; reflexivity.
  - vm_compute; reflexivity.
  - vm_compute; reflexivity.
Defined.

(** C2 (as stated, refuted). A fresh decoder is not in state FIND SSC. *)
Lemma C2_initial_state_is_not_FIND_SSC :
  state (new_Decoder shifted) <> FIND_SSC.
Proof. discriminate. Qed.

(** C2 (amended). [reset] leaves the decoder in state FIND BUS_PARK, so
    does construction, and a run that gets no sample stops in that very
    decoder. *)
Theorem C2_initial_state_is_FIND_BUS_PARK (fmt : AddressFormat)
  (d : Decoder) (fuel : nat) :
  state (reset d) = FIND_BUS_PARK /\
  state (new_Decoder fmt) = FIND_BUS_PARK /\
  decode (S fuel) (new_Decoder fmt) [] = Stopped (new_Decoder fmt).
Proof. repeat split. Qed.

(** C3 (as stated, refuted). In the Register-Write run the counters drop
    from (2, 0, 1) to zero on the turn that consumes the Bus Park: the
    turn starts in FIND BUS_PARK, emits the Bus-Park annotation only, and
    the input ends there, so no fresh Sequence Start is found, neither on
    that turn nor later. *)
Lemma C3_reset_without_fresh_sequence_start :
  let d := after 24 shifted rw_trace in
  let r := decode_body d (unread 24 shifted rw_trace) in
  state d = FIND_BUS_PARK /\
  (Pcount d, ADDcount d, BPcount d) = (2, 0, 1) /\
  (Pcount (result_decoder r), ADDcount (result_decoder r),
   BPcount (result_decoder r)) = (0, 0, 0) /\
  map ann_index (skipn (length (sink d)) (sink (result_decoder r))) =
    [proto_0 K_BP] /\
  unread 25 shifted rw_trace = [] /\
  length (filter (fun a => ann_index a =? proto_0 K_SSC)
            (sink (after 25 shifted rw_trace))) = 1%nat.
Proof. vm_compute. repeat split. Qed.

(** C3 (amended). On every turn of every run, either none of the three
    counters decreases, or the turn is the one that consumes the final
    Bus Park of a transaction: it starts in FIND BUS_PARK with a command
    key, emits the Bus-Park annotation last, and ends in FIND SSC with the
    command key NULL and the three counters at zero. *)
Theorem C3_counters_monotone_until_final_park fmt inp0 n d inp :
  turns n (new_Decoder fmt) inp0 = Done tt d inp ->
  counters_le d (result_decoder (decode_body d inp)) \/
  final_park d (decode_body d inp).
Proof.
  intros T. destruct (reachable_Inv _ _ _ _ _ T) as [I _].
  exact (body_counters d inp I).
Qed.

Lemma C3_counters_monotone_until_final_park_witness :
  counters_le (after 24 shifted rw_trace)
    (result_decoder
       (decode_body (after 24 shifted rw_trace) (unread 24 shifted rw_trace)))
  \/
  final_park (after 24 shifted rw_trace)
    (decode_body (after 24 shifted rw_trace) (unread 24 shifted rw_trace)).
Proof.
  apply (C3_counters_monotone_until_final_park shifted rw_trace 24).
  vm_compute; reflexivity.
Defined.

(** C4. No run from a fresh decoder ever emits a Command-Warning
    annotation; on the input whose command bits are 0 0 0 1 the third bit
    is classified Register Write.  (The claim asks for a warning there.) *)
Theorem C4_command_warning_never_emitted :
  (forall fmt inp fuel,
     Forall (fun a => ~ has_index K_CMD_WARNINGS a)
       (sink (outcome_decoder (decode fuel (new_Decoder fmt) inp)))) /\
  decode 30 (new_Decoder shifted) reserved_command_trace =
    Stopped (after 20 shifted reserved_command_trace) /\
  map ann_index (sink (after 20 shifted reserved_command_trace)) =
    [proto_0 K_SSC; proto_0 K_SA; proto_0 K_RW; proto_0 K_ADDRESS] /\
  cmdkey (after 9 shifted reserved_command_trace) = Key K_RW.
Proof.
  split; [|vm_compute; repeat split].
  intros fmt inp fuel.
  destruct (new_Decoder_Inv fmt) as [I S].
  destruct (decode_Safe fuel _ inp I S) as ((_ & _ & _ & _ & L) & _).
  revert L. apply Forall_impl. intros a L E. unfold live in L.
  rewrite E in L. discriminate.
Qed.

(** C10. At every point where a run from a fresh decoder can be observed
    (after any number of turns, and where it stops), the command key is
    none of ERW, ERR, ERWL, ERRL, the state is not FIND BTEY_COUNT, no
    Byte-Count annotation has been emitted, and in state FIND COMMAND the
    bit count is below 3. *)
Theorem C10_extended_commands_unreachable fmt inp fuel :
  let d := outcome_decoder (decode fuel (new_Decoder fmt) inp) in
  cmdkey d <> Key K_ERW /\ cmdkey d <> Key K_ERR /\
  cmdkey d <> Key K_ERWL /\ cmdkey d <> Key K_ERRL /\
  state d <> FIND_BTEY_COUNT /\
  Forall (fun a => ~ has_index K_BC a) (sink d) /\
  (state d = FIND_COMMAND -> 0 <= bitcount d < 3).
Proof.
  destruct (new_Decoder_Inv fmt) as [I S].
  destruct (decode_Safe fuel _ inp I S) as ((K & St & _ & B & L) & _).
  cbv zeta.
  assert (N : forall c, c <> K_R0W -> c <> K_RW -> c <> K_RR ->
              cmdkey (outcome_decoder (decode fuel (new_Decoder fmt) inp))
              <> Key c).
  { intros c N1 N2 N3 E. rewrite E in K.
    destruct K as [K | [K | [K | K]]]; inversion K; congruence. }
  split; [apply N; discriminate|]. split; [apply N; discriminate|].
  split; [apply N; discriminate|]. split; [apply N; discriminate|].
  split; [exact St|]. split.
  - revert L. apply Forall_impl. intros a L E. unfold live in L.
    rewrite E in L. discriminate.
  - intros E. specialize (B E). lia.
Qed.

(** C5 (as stated, refuted). In the Register-Write run, four turns into
    the address field the decoder is still in FIND ADDRESS with no Address
    annotation emitted; the fifth bit completes the field, whose value 6
    is that of the five bits 0 0 1 1 0. *)
Lemma C5_four_bits_do_not_complete_address :
  cmdkey (after 9 shifted rw_trace) = Key K_RW /\
  state (after 9 shifted rw_trace) = FIND_ADDRESS /\
  bitcount (after 9 shifted rw_trace) = 0 /\
  state (after 13 shifted rw_trace) = FIND_ADDRESS /\
  bitcount (after 13 shifted rw_trace) = 4 /\
  filter (fun a => ann_index a =? proto_0 K_ADDRESS)
    (sink (after 13 shifted rw_trace)) = [] /\
  state (after 14 shifted rw_trace) = FIND_PARITY /\
  map ann_texts
    (filter (fun a => ann_index a =? proto_0 K_ADDRESS)
       (sink (after 14 shifted rw_trace))) =
    [field_texts K_ADDRESS 4 6] /\
  sampled 5 (after 9 shifted rw_trace) (unread 9 shifted rw_trace) =
    [false; false; true; true; false].
Proof. vm_compute. repeat split. Qed.

(** C5 (amended). A field started with [bitcount = 0] takes [key + 1]
    bits: the address field exactly 5 bits for RW and RR and exactly 8
    otherwise, the byte-count field exactly 4 bits for ERW and ERR and
    exactly 3 otherwise.  Before the last of these turns the state stays
    and only Illegal-Jump-Edge annotations appear; the last turn emits the
    field annotation, labelled with [key] and carrying the value of the
    sampled bits, and moves to FIND PARITY. *)
Theorem C5_field_takes_key_plus_one_bits d inp cmd (w : nat) :
  bitcount d = 0 ->
  (state d = FIND_ADDRESS /\ cmd = K_ADDRESS /\
   w = address_width (cmdkey d)) \/
  (state d = FIND_BTEY_COUNT /\ cmd = K_BC /\
   w = byte_count_width (cmdkey d)) ->
  (forall n d' inp',
     (n < w)%nat -> turns n d inp = Done tt d' inp' ->
     state d' = state d /\ bitcount d' = Z.of_nat n /\
     exists l, sink d' = sink d ++ l /\ Forall is_IJE l) /\
  (forall d' inp',
     turns w d inp = Done tt d' inp' ->
     state d' = FIND_PARITY /\ length (sampled w d inp) = w /\
     exists l x, sink d' = sink d ++ l ++ [x] /\ Forall is_IJE l /\
       has_index cmd x /\
       ann_texts x =
         field_texts cmd (Z.of_nat w - 1)
           (accumulate (databyte d) (sampled w d inp))).
Proof.
  intros B H.
  assert (F : field d = Some (cmd, Z.of_nat w - 1) /\ (1 <= w)%nat /\
              field_next (state d) = FIND_PARITY /\ state d <> FIND_PARITY).
  { unfold field, address_width, byte_count_width in *.
    destruct H as [(S & -> & ->) | (S & -> & ->)]; rewrite S.
    - destruct (CmdKey_eqb (cmdkey d) K_RW || CmdKey_eqb (cmdkey d) K_RR);
        repeat split; simpl; try lia; discriminate.
    - destruct (CmdKey_eqb (cmdkey d) K_ERW || CmdKey_eqb (cmdkey d) K_ERR);
        repeat split; simpl; try lia; discriminate. }
  destruct F as (F & W & Nx & NP). split.
  - intros n d' inp' L T.
    destruct (field_pending cmd (Z.of_nat w - 1) n d inp d' inp' F
                ltac:(lia) ltac:(lia) T)
      as (_ & S' & B' & _ & _ & E).
    split; [exact S'|]. split; [lia|exact E].
  - intros d' inp' T. destruct w as [|w']; [lia|].
    destruct (field_complete cmd (Z.of_nat (S w') - 1) w' d inp d' inp' F
                ltac:(lia) ltac:(lia) T)
      as (L' & _ & _ & S' & E).
    split; [rewrite <- Nx; apply S'; exact NP|]. split; [exact L'|exact E].
Qed.

Lemma C5_field_takes_key_plus_one_bits_witness :
  state (after 14 shifted rw_trace) = FIND_PARITY /\
  length (sampled 5 (after 9 shifted rw_trace) (unread 9 shifted rw_trace))
    = 5%nat.
Proof.
  pose proof (C5_field_takes_key_plus_one_bits (after 9 shifted rw_trace)
                (unread 9 shifted rw_trace) K_ADDRESS 5) as H.
  assert (B : bitcount (after 9 shifted rw_trace) = 0)
    by (vm_compute; reflexivity).
  assert (S : state (after 9 shifted rw_trace) = FIND_ADDRESS /\
              K_ADDRESS = K_ADDRESS /\
              5%nat = address_width (cmdkey (after 9 shifted rw_trace)))
    by (vm_compute; repeat split).
  destruct (H B (or_introl S)) as [_ H2].
  destruct (H2 (after 14 shifted rw_trace) (unread 14 shifted rw_trace))
    as (S' & L' & _).
  - vm_compute; reflexivity.
  - split; [exact S'|exact L'].
Defined.

(** C6. A completed turn in FIND BUS_PARK of a decoder that holds a
    command key, whose last wait matched the Bus-Park pattern: the
    Bus-Park annotation is emitted last; for ERR, ERRL or RR with
    [BPcount = 1] the state becomes FIND DATA and the transaction context
    is kept; in every other case the context is reset and the state
    becomes FIND SSC.  (When the pattern is not matched the turn leaves
    state and context as they were.) *)
Theorem C6_bus_park_dispatch d inp d' inp' :
  state d = FIND_BUS_PARK -> cmdkey d <> NULL ->
  decode_body d inp = Done tt d' inp' ->
  (matched_bit 1 d' = true ->
   (exists l x, sink d' = sink d ++ l ++ [x] /\ Forall is_IJE l /\
                has_index K_BP x) /\
   if read_family (cmdkey d) && (BPcount d =? 1)
   then state d' = FIND_DATA /\ context_kept d d'
   else state d' = FIND_SSC /\ context_reset d') /\
  (matched_bit 1 d' = false ->
   state d' = FIND_BUS_PARK /\ context_kept d d').
Proof.
  intros S K T. pose proof (bus_park_turn d inp S K) as P.
  rewrite T in P. unfold bus_park_post in P.
  destruct (matched_bit 1 d').
  - split; [intros _; exact P | discriminate].
  - split; [discriminate|]. intros _. destruct P as (A & B & _). auto.
Qed.

Lemma C6_bus_park_dispatch_witness :
  (state (after 16 shifted rr_trace) = FIND_DATA /\
   context_kept (after 15 shifted rr_trace) (after 16 shifted rr_trace)) /\
  (state (after 26 shifted rr_trace) = FIND_SSC /\
   context_reset (after 26 shifted rr_trace)).
Proof.
  split.
  - assert (T : decode_body (after 15 shifted rr_trace)
                  (unread 15 shifted rr_trace) =
                Done tt (after 16 shifted rr_trace)
                  (unread 16 shifted rr_trace))
      by (vm_compute; reflexivity).
    assert (S : state (after 15 shifted rr_trace) = FIND_BUS_PARK)
      by (vm_compute; reflexivity).
    assert (K : cmdkey (after 15 shifted rr_trace) <> NULL)
      by (vm_compute; discriminate).
    destruct (C6_bus_park_dispatch _ _ _ _ S K T) as [H _].
    assert (B : matched_bit 1 (after 16 shifted rr_trace) = true)
      by (vm_compute; reflexivity).
    destruct (H B) as [_ H']. exact H'.
  - assert (T : decode_body (after 25 shifted rr_trace)
                  (unread 25 shifted rr_trace) =
                Done tt (after 26 shifted rr_trace)
                  (unread 26 shifted rr_trace))
      by (vm_compute; reflexivity).
    assert (S : state (after 25 shifted rr_trace) = FIND_BUS_PARK)
      by (vm_compute; reflexivity).
    assert (K : cmdkey (after 25 shifted rr_trace) <> NULL)
      by (vm_compute; discriminate).
    destruct (C6_bus_park_dispatch _ _ _ _ S K T) as [H _].
    assert (B : matched_bit 1 (after 26 shifted rr_trace) = true)
      by (vm_compute; reflexivity).
    destruct (H B) as [_ H']. exact H'.
Defined.

(** C7. In every run: a turn in FIND COMMAND at bit index 0 that reads a
    high data line and completes leaves the command key R0W and the state
    FIND DATA; and while the command key is R0W the decoder is never in
    FIND ADDRESS, no turn emits an Address annotation or enters FIND
    ADDRESS, the data field is followed by FIND PARITY only, and the
    parity turn takes one bit, emits the Parity annotation, counts one
    parity and goes to FIND BUS_PARK. *)
Theorem C7_register_0_write_has_no_address fmt inp0 n d inp :
  turns n (new_Decoder fmt) inp0 = Done tt d inp ->
  (forall a rest d' inp',
     state d = FIND_COMMAND -> bitcount d = 0 ->
     inp = a :: rest -> ans_sdata a = true ->
     decode_body d inp = Done tt d' inp' ->
     cmdkey d' = Key K_R0W /\ state d' = FIND_DATA) /\
  (cmdkey d = Key K_R0W ->
   state d <> FIND_ADDRESS /\
   state (result_decoder (decode_body d inp)) <> FIND_ADDRESS /\
   (exists l, sink (result_decoder (decode_body d inp)) = sink d ++ l /\
              Forall (fun x => ~ has_index K_ADDRESS x) l) /\
   (state d = FIND_DATA ->
    state (result_decoder (decode_body d inp)) = FIND_DATA \/
    state (result_decoder (decode_body d inp)) = FIND_PARITY) /\
   (forall d' inp',
      state d = FIND_PARITY -> decode_body d inp = Done tt d' inp' ->
      state d' = FIND_BUS_PARK /\ Pcount d' = 1 /\
      exists l x, sink d' = sink d ++ l ++ [x] /\ Forall is_IJE l /\
                  has_index K_P x)).
Proof.
  intros T. destruct (reachable_Inv _ _ _ _ _ T) as [I _]. split.
  - intros a rest d' inp' S B -> Hi H.
    rewrite decode_body_FIND_COMMAND in H by exact S.
    rewrite Hi in H. rewrite handle_CMD_bit0_high in H by exact B.
    pose proof (cmdset_spec K_R0W FIND_DATA
                  (set_DATAss (Some (samplenum (observe a d))) (observe a d))
                  rest) as P.
    rewrite H in P. destruct P as (K & St & _). auto.
  - intros K. destruct (R0W_turn d inp I K) as (N & P).
    unfold R0W_post in P. destruct P as (P1 & P2 & P3 & P4).
    split; [exact N|]. split; [exact P1|]. split; [exact P2|].
    split; [exact P3|].
    intros d' inp' S H. specialize (P4 S). rewrite H in P4. exact P4.
Qed.

Lemma C7_register_0_write_has_no_address_witness :
  (cmdkey (after 7 shifted r0w_trace) = Key K_R0W /\
   state (after 7 shifted r0w_trace) = FIND_DATA) /\
  (state (after 15 shifted r0w_trace) = FIND_BUS_PARK /\
   Pcount (after 15 shifted r0w_trace) = 1).
Proof.
  split.
  - destruct (C7_register_0_write_has_no_address shifted r0w_trace 6
                (after 6 shifted r0w_trace) (unread 6 shifted r0w_trace)
                ltac:(vm_compute; reflexivity)) as [H _].
    apply (H (mkAnswer 1 80 true true) (tl (unread 6 shifted r0w_trace))
             (after 7 shifted r0w_trace) (unread 7 shifted r0w_trace)).
    all: vm_compute; reflexivity.
  - destruct (C7_register_0_write_has_no_address shifted r0w_trace 14
                (after 14 shifted r0w_trace) (unread 14 shifted r0w_trace)
                ltac:(vm_compute; reflexivity)) as [_ H].
    destruct (H ltac:(vm_compute; reflexivity)) as (_ & _ & _ & _ & H').
    destruct (H' (after 15 shifted r0w_trace) (unread 15 shifted r0w_trace)
                ltac:(vm_compute; reflexivity)
                ltac:(vm_compute; reflexivity)) as (A & B & _).
    split; [exact A|exact B].
Defined.

(** C8. A field started with an empty accumulator and completed after its
    [key + 1] turns is annotated with the value obtained by shifting the
    sampled bits in, first bit first (most significant), and writing that
    value back on as many bits gives the sampled bits again. *)
Theorem C8_field_value_round_trip d inp cmd key d' inp' :
  field d = Some (cmd, key) -> 0 <= key ->
  bitcount d = 0 -> databyte d = 0 ->
  turns (Z.to_nat (key + 1)) d inp = Done tt d' inp' ->
  length (sampled (Z.to_nat (key + 1)) d inp) = Z.to_nat (key + 1) /\
  (exists l x, sink d' = sink d ++ l ++ [x] /\ Forall is_IJE l /\
     has_index cmd x /\
     ann_texts x =
       field_texts cmd key
         (accumulate 0 (sampled (Z.to_nat (key + 1)) d inp))) /\
  encode (Z.to_nat (key + 1))
    (accumulate 0 (sampled (Z.to_nat (key + 1)) d inp)) =
  sampled (Z.to_nat (key + 1)) d inp.
Proof.
  intros F K B D T.
  replace (Z.to_nat (key + 1)) with (S (Z.to_nat key)) in * by lia.
  destruct (field_complete cmd key (Z.to_nat key) d inp d' inp' F
              ltac:(lia) ltac:(lia) T) as (L & _ & _ & _ & E).
  rewrite D in E. split; [exact L|]. split; [exact E|].
  rewrite <- L at 1. apply encode_accumulate.
Qed.

Lemma C8_field_value_round_trip_witness :
  sampled 8 (after 15 shifted rw_trace) (unread 15 shifted rw_trace) =
    [true; true; false; false; true; false; true; false] /\
  accumulate 0
    (sampled 8 (after 15 shifted rw_trace) (unread 15 shifted rw_trace)) =
    202 /\
  encode 8 202 = [true; true; false; false; true; false; true; false].
Proof.
  destruct (C8_field_value_round_trip (after 15 shifted rw_trace)
              (unread 15 shifted rw_trace) K_DATA 7
              (after 23 shifted rw_trace) (unread 23 shifted rw_trace))
    as (_ & _ & H).
  - vm_compute; reflexivity.
  - lia.
  - vm_compute; reflexivity.
  - vm_compute; reflexivity.
  - vm_compute; reflexivity.
  - split; [vm_compute; reflexivity|]. split; [vm_compute; reflexivity|].
    vm_compute; reflexivity.
Defined.

(** C9. Two runs that differ only in the [address_format] option and are
    served by the same source, which is handed the conditions of every
    wait and may answer by them, end the same way and emit the same
    annotations: same start and end samples, same kinds (and the same
    texts). *)
Theorem C9_address_format_does_not_interfere (f1 f2 : AddressFormat)
  (fuel : nat) (src : Source) :
  outcome_same (Hosted.decode fuel (new_Decoder f1) src)
               (Hosted.decode fuel (new_Decoder f2) src) /\
  sink (outcome_decoder (Hosted.decode fuel (new_Decoder f1) src)) =
  sink (outcome_decoder (Hosted.decode fuel (new_Decoder f2) src)) /\
  map framing
    (sink (outcome_decoder (Hosted.decode fuel (new_Decoder f1) src))) =
  map framing
    (sink (outcome_decoder (Hosted.decode fuel (new_Decoder f2) src))).
Proof.
  assert (H : outcome_same (Hosted.decode fuel (new_Decoder f1) src)
                           (Hosted.decode fuel (new_Decoder f2) src))
    by (apply decode_blind; reflexivity).
  assert (E : sink (outcome_decoder
                      (Hosted.decode fuel (new_Decoder f1) src)) =
              sink (outcome_decoder
                      (Hosted.decode fuel (new_Decoder f2) src))).
  { destruct (Hosted.decode fuel (new_Decoder f1) src),
             (Hosted.decode fuel (new_Decoder f2) src);
      simpl in H; try contradiction; now apply same_sink. }
  split; [exact H|]. split; [exact E|]. now rewrite E.
Qed.

(** * Further properties *)

Ltac emits_list :=
  simpl;
  repeat first
    [ apply Forall_nil
    | apply Forall_cons; [reflexivity|]
    | apply Forall_app; split
    | match goal with
      | H : Forall is_IJE ?l |- Forall _ ?l =>
          revert H; apply Forall_impl;
          let a := fresh "a" in let E := fresh "E" in
          intros a E; unfold emits_only; rewrite E; reflexivity
      end
    | assumption ].

Lemma body_emits d inp :
  let d' := result_decoder (decode_body d inp) in
  samplerate d' = samplerate d /\ address_format d' = address_format d /\
  exists l, sink d' = sink d ++ l /\
            Forall (emits_only (may_emit (state d))) l.
Proof.
  destruct d as [fmt rate ss0 es0 bc db st ext ck BC0 Pc BPc ADDc BPss0
                 SSCs0 Pes0 Dss m sn snk].
  destruct st; unfold_code; unfold result_decoder; crunch.
  all: split; [reflexivity|]; split; [reflexivity|].
  all: eexists; split;
    [ first [ symmetry; apply app_nil_r | rewrite <- ?app_assoc; reflexivity ]
    | emits_list ].
Qed.

Lemma SSC_turn d inp : state d = FIND_SSC -> SSC_post d (decode_body d inp).
Proof.
  destruct d as [fmt rate ss0 es0 bc db st ext ck BC0 Pc BPc ADDc BPss0
                 SSCs0 Pes0 Dss m sn snk].
  simpl. intros ->.
  unfold_code; unfold SSC_post, transaction_ctx, matched_bit; crunch;
    try exact I.
  all: split; [reflexivity|]; split; [reflexivity|].
  all: eexists; split;
    [ first [ symmetry; apply app_nil_r | rewrite <- ?app_assoc; reflexivity ]
    |].
  all: simpl.
  all: try solve [IJE_list].
  all: try match goal with
       | |- exists l' x, ?L = l' ++ [x] /\ _ =>
           exists (removelast L), (last L (mkAnnotation 0 0 0 []));
           split; [reflexivity|]
       | |- exists x l', _ = x :: l' /\ _ =>
           eexists; eexists; split; [reflexivity|]
       end.
  all: repeat split; try reflexivity; try assumption; try solve [IJE_list].
Qed.

Lemma idle_turn d inp :
  state d = FIND_BUS_PARK -> cmdkey d = NULL ->
  idle_post d (decode_body d inp).
Proof.
  destruct d as [fmt rate ss0 es0 bc db st ext ck BC0 Pc BPc ADDc BPss0
                 SSCs0 Pes0 Dss m sn snk].
  simpl. intros -> ->.
  unfold_code; unfold idle_post, transaction_ctx; crunch; try exact I.
  all: split; [reflexivity|]; split; [auto|].
  all: eexists; split;
    [ first [ symmetry; apply app_nil_r | rewrite <- ?app_assoc; reflexivity ]
    | emits_list ].
Qed.

Lemma parity_turn d inp :
  Inv d -> state d = FIND_PARITY -> parity_post d (decode_body d inp).
Proof.
  intros HI.
  destruct d as [fmt rate ss0 es0 bc db st ext ck BC0 Pc BPc ADDc BPss0
                 SSCs0 Pes0 Dss m sn snk].
  unfold Inv in HI. simpl in HI. simpl. intros ->.
  destruct ck as [|[]]; try (exfalso; tauto).
  all: unfold_code; unfold parity_post; crunch; try exact I; bool_props.
  all: try (exfalso; lia).
  all: split; [reflexivity|]; split; [reflexivity|]; split; [reflexivity|].
  all: split; [sink_last; split; reflexivity|].
  all: split; [reflexivity|lia].
Qed.

Lemma field_start_turn d inp cmd key :
  field d = Some (cmd, key) -> 0 <= bitcount d ->
  field_start_post d inp cmd key (decode_body d inp).
Proof.
  destruct d as [fmt rate ss0 es0 bc db st ext ck BC0 Pc BPc ADDc BPss0
                 SSCs0 Pes0 Dss m sn snk].
  unfold field. simpl. intros F B.
  destruct st; try discriminate; injection F as <- <-.
  all: unfold_code; unfold field_start_post, field_start; crunch;
    try exact I.
  all: bool_props; try (exfalso; lia); try reflexivity.
  all: try (rewrite <- ?app_assoc;
            eexists; eexists; split; [reflexivity|];
            split; [assumption|]; repeat split; congruence).
Qed.

Lemma decode_more_fuel fuel : forall d inp x k,
  decode fuel d inp = Stopped x -> decode (fuel + k) d inp = Stopped x.
Proof.
  induction fuel as [|fuel IH]; intros d inp x k H; [discriminate|].
  simpl in *. destruct (decode_body d inp) as [[] d1 inp1|d1|d1]; auto.
Qed.

(** X1. A run from a fresh decoder always ends because the sample source
    runs dry: with fuel for one turn more than there are answers it has
    stopped, more fuel changes nothing, and it never reads [DATAss] before
    assigning it. *)
Theorem X1_decode_stops_when_the_source_runs_dry fmt inp :
  (exists d, forall k,
     decode (S (length inp) + k) (new_Decoder fmt) inp = Stopped d) /\
  (forall fuel d, decode fuel (new_Decoder fmt) inp <> Crashed d).
Proof.
  destruct (new_Decoder_Inv fmt) as [I S].
  split.
  - destruct (decode_Safe (Datatypes.S (length inp)) _ inp I S)
      as (_ & _ & H).
    destruct (H ltac:(lia)) as [d Hd]. exists d. intros k.
    now apply decode_more_fuel.
  - intros fuel d. destruct (decode_Safe fuel _ inp I S) as (_ & H & _).
    apply H.
Qed.

(** X2. The edge-waiting loop of [handle], [handle_CMD] and [cmdset]
    never fails; it assigns only [ss], [es], [matched] and [samplenum];
    the annotations it adds are all Illegal Jump Edges; and when it
    returns it has taken at least one answer and its last answer matched
    the expected edge (pattern 1). *)
Theorem X2_edge_wait_touches_only_scratch conds d inp :
  match wait_edge conds d inp with
  | Done _ d' inp' =>
      ctx d' = ctx d /\
      (exists l, sink d' = sink d ++ l /\ Forall is_IJE l) /\
      (length inp' < length inp)%nat /\ matched_bit 1 d' = true
  | Eof d' =>
      ctx d' = ctx d /\ exists l, sink d' = sink d ++ l /\ Forall is_IJE l
  | AttributeError _ => False
  end.
Proof.
  pose proof (wait_edge_post conds (length inp) inp d (le_n _)) as P.
  destruct (wait_edge conds d inp) as [[] d' inp'|d'|d']; simpl in P.
  - destruct P as ((C & L) & N & B). auto.
  - exact P.
  - exact P.
Qed.

Lemma matched_bit_observe k a d :
  matched_bit k (observe a d) =
  truthy (Z.land (ans_matched a) (Z.shiftl 1 k)).
Proof. reflexivity. Qed.

Lemma matched_bit_set_es k v d : matched_bit k (set_es v d) = matched_bit k d.
Proof. reflexivity. Qed.

Lemma matched_bit_putx k i t d : matched_bit k (putx i t d) = matched_bit k d.
Proof. reflexivity. Qed.

Ltac bits_of_answers H :=
  rewrite ?matched_bit_putx, ?matched_bit_set_es, ?matched_bit_observe in H.

Lemma IJE_count conds : forall n inp d d' inp',
  (length inp <= n)%nat -> Forall exclusive inp ->
  wait_edge conds d inp = Done tt d' inp' ->
  exists l, sink d' = sink d ++ l /\ Forall is_IJE l /\
            length l = Nat.div2 (length inp - length inp').
Proof.
  induction n as [|n IH]; intros inp d d' inp' L X H.
  - destruct inp; [discriminate | simpl in L; lia].
  - destruct inp as [|a1 inp1]; [discriminate|].
    simpl in L. cbn [wait_edge] in H.
    inversion X as [|? ? X1 X1']; subst.
    unfold exclusive in X1. rewrite !matched_bit_observe in H.
    destruct (truthy (Z.land (ans_matched a1) (Z.shiftl 1 0))) eqn:B0.
    + destruct inp1 as [|a2 inp2]; [discriminate|].
      simpl in L.
      inversion X1' as [|? ? X2 X2']; subst. unfold exclusive in X2.
      bits_of_answers H.
      destruct (truthy (Z.land (ans_matched a2) (Z.shiftl 1 0))) eqn:C0.
      * bits_of_answers H.
        destruct (truthy (Z.land (ans_matched a2) (Z.shiftl 1 1)));
          [discriminate|].
        pose proof H as H'.
        apply wait_edge_Done in H'.
        destruct H' as (_ & _ & _ & _ & _ & _ & _ & Llt & _).
        assert (L2 : (length inp2 <= n)%nat) by lia.
        destruct (IH _ _ _ _ L2 X2' H) as (l & S & F & N).
        eexists. split; [rewrite S; simpl; rewrite <- app_assoc; reflexivity|].
        split; [apply Forall_app; split; [repeat constructor|exact F]|].
        rewrite length_app, N. cbn [length].
        replace (Datatypes.S (Datatypes.S (length inp2)) - length inp')%nat
          with (Datatypes.S (Datatypes.S (length inp2 - length inp')))
          by lia.
        reflexivity.
      * bits_of_answers H.
        destruct (truthy (Z.land (ans_matched a2) (Z.shiftl 1 1)));
          [|discriminate].
        injection H as <- <-. eexists. split; [simpl; reflexivity|].
        split; [repeat constructor|].
        cbn [length].
        replace (Datatypes.S (Datatypes.S (length inp2)) - length inp2)%nat
          with 2%nat by lia.
        reflexivity.
    + destruct (truthy (Z.land (ans_matched a1) (Z.shiftl 1 1)));
        [|discriminate].
      injection H as <- <-. exists []. split; [simpl; now rewrite app_nil_r|].
      split; [constructor|].
      cbn [length].
      replace (Datatypes.S (length inp1) - length inp1)%nat with 1%nat by lia.
      reflexivity.
Qed.

(** X3. On a host whose two patterns exclude each other, the edge-waiting
    loop pairs every unexpected edge with the answer that follows it and
    reports the pair once: it emits one Illegal-Jump-Edge annotation for
    every two answers it takes, and none when the expected edge comes
    first. *)
Theorem X3_one_illegal_jump_edge_per_answer_pair conds d inp d' inp' :
  Forall exclusive inp ->
  wait_edge conds d inp = Done tt d' inp' ->
  exists l, sink d' = sink d ++ l /\ Forall is_IJE l /\
            length l = Nat.div2 (length inp - length inp').
Proof. intros X H. now apply (IJE_count conds (length inp) inp). Qed.

Lemma X3_one_illegal_jump_edge_per_answer_pair_witness :
  exists l,
    sink (result_decoder
            (wait_edge cond_edge_r (new_Decoder shifted)
               [mkAnswer 1 10 false true; mkAnswer 1 12 false false;
                mkAnswer 1 14 false true; mkAnswer 2 20 true true;
                mkAnswer 2 30 true true])) =
    sink (new_Decoder shifted) ++ l /\
    Forall is_IJE l /\ length l = 2%nat.
Proof.
  apply (X3_one_illegal_jump_edge_per_answer_pair cond_edge_r
           (new_Decoder shifted)
           [mkAnswer 1 10 false true; mkAnswer 1 12 false false;
            mkAnswer 1 14 false true; mkAnswer 2 20 true true;
            mkAnswer 2 30 true true]
           _ [mkAnswer 2 30 true true]).
  - repeat constructor.
  - vm_compute; reflexivity.
Defined.

Lemma field_interval cmd key : forall n d inp d' inp',
  field d = Some (cmd, key) -> 0 <= bitcount d ->
  bitcount d + Z.of_nat n = key ->
  turns (S n) d inp = Done tt d' inp' ->
  exists l x, sink d' = sink d ++ l ++ [x] /\ Forall is_IJE l /\
    has_index cmd x /\ Some (ann_ss x) = field_start d inp /\
    ann_es x = samplenum d'.
Proof.
  induction n as [|n IH]; intros d inp d' inp' F B K T.
  - cbn [turns] in T. unfold bind in T.
    pose proof (field_start_turn d inp cmd key F B) as P.
    destruct (decode_body d inp) as [[] d1 inp1|d1|d1]; try discriminate.
    simpl in T. injection T as <- <-. unfold field_start_post in P.
    assert (Hlt : (bitcount d <? key) = false) by (apply Z.ltb_ge; lia).
    rewrite Hlt in P. exact P.
  - cbn [turns] in T. unfold bind in T.
    pose proof (field_start_turn d inp cmd key F B) as P.
    pose proof (field_turn_aux d inp cmd key F B) as Q.
    destruct (decode_body d inp) as [[] d1 inp1|d1|d1]; try discriminate.
    unfold field_start_post in P. unfold field_turn_post in Q.
    destruct Q as (a & rest & -> & Q).
    assert (Hlt : (bitcount d <? key) = true) by (apply Z.ltb_lt; lia).
    rewrite Hlt in P, Q.
    destruct Q as (S1 & C1 & BC1 & B1 & _ & l1 & K1 & F1).
    assert (Fd1 : field d1 = Some (cmd, key))
      by (rewrite (field_stable d d1) by assumption; exact F).
    assert (B1' : 0 <= bitcount d1) by lia.
    assert (K1' : bitcount d1 + Z.of_nat n = key) by lia.
    destruct (IH d1 inp1 d' inp' Fd1 B1' K1' T)
      as (l & x & S & Fl & Hx & Hs & He).
    exists (l1 ++ l), x. rewrite S, K1, <- !app_assoc.
    split; [reflexivity|]. split; [apply Forall_app; auto|].
    split; [exact Hx|]. split; [|exact He].
    rewrite Hs. unfold field_start at 1.
    assert (Hne : (bitcount d1 =? 0) = false) by (apply Z.eqb_neq; lia).
    rewrite Hne. exact P.
Qed.

(** X4. The annotation of a field that starts with [bitcount = 0] begins
    at the sample where the field's first bit was read and ends at the
    sample where the wait for the edge after its last bit returned. *)
Theorem X4_field_annotation_interval d a rest cmd key d' inp' :
  field d = Some (cmd, key) -> 0 <= key -> bitcount d = 0 ->
  turns (Z.to_nat (key + 1)) d (a :: rest) = Done tt d' inp' ->
  exists l x, sink d' = sink d ++ l ++ [x] /\ Forall is_IJE l /\
    has_index cmd x /\ ann_ss x = ans_samplenum a /\
    ann_es x = samplenum d'.
Proof.
  intros F K B T.
  replace (Z.to_nat (key + 1)) with (S (Z.to_nat key)) in T by lia.
  assert (B0 : 0 <= bitcount d) by lia.
  assert (K0 : bitcount d + Z.of_nat (Z.to_nat key) = key) by lia.
  destruct (field_interval cmd key (Z.to_nat key) d (a :: rest) d' inp'
              F B0 K0 T) as (l & x & S & Fl & Hx & Hs & He).
  exists l, x. unfold field_start in Hs. rewrite B in Hs. simpl in Hs.
  injection Hs as Hs. auto.
Qed.

Lemma X4_field_annotation_interval_witness :
  exists l x,
    sink (after 23 shifted rw_trace) =
      sink (after 15 shifted rw_trace) ++ l ++ [x] /\
    Forall is_IJE l /\ has_index K_DATA x /\ ann_ss x = 170 /\
    ann_es x = samplenum (after 23 shifted rw_trace).
Proof.
  apply (X4_field_annotation_interval (after 15 shifted rw_trace)
           (mkAnswer 1 170 true true) (tl (unread 15 shifted rw_trace))
           K_DATA 7 (after 23 shifted rw_trace)
           (unread 23 shifted rw_trace)).
  - vm_compute; reflexivity.
  - lia.
  - vm_compute; reflexivity.
  - vm_compute; reflexivity.
Defined.

(** X5. In every run, a slave-address field takes exactly 4 bits, a data
    field exactly 7 bits under Register 0 Write and exactly 8 bits
    otherwise, and a parity field exactly 1 bit: before the last of these
    turns the state stays and only Illegal-Jump-Edge annotations appear,
    and the last turn emits the field annotation with the value of the
    sampled bits. *)
Theorem X5_reachable_field_widths fmt inp0 m d inp cmd (w : nat) :
  turns m (new_Decoder fmt) inp0 = Done tt d inp ->
  bitcount d = 0 ->
  (state d = FIND_SLAVE_ADDRESS /\ cmd = K_SA /\ w = 4%nat) \/
  (state d = FIND_DATA /\ cmd = K_DATA /\
   w = if CmdKey_eqb (cmdkey d) K_R0W then 7%nat else 8%nat) \/
  (state d = FIND_PARITY /\ cmd = K_P /\ w = 1%nat) ->
  (forall n d' inp',
     (n < w)%nat -> turns n d inp = Done tt d' inp' ->
     state d' = state d /\ bitcount d' = Z.of_nat n /\
     exists l, sink d' = sink d ++ l /\ Forall is_IJE l) /\
  (forall d' inp',
     turns w d inp = Done tt d' inp' ->
     length (sampled w d inp) = w /\
     (state d <> FIND_PARITY -> state d' = field_next (state d)) /\
     exists l x, sink d' = sink d ++ l ++ [x] /\ Forall is_IJE l /\
       has_index cmd x /\
       ann_texts x =
         field_texts cmd (Z.of_nat w - 1) (accumulate 0 (sampled w d inp))).
Proof.
  intros T B H.
  destruct (reachable_Inv _ _ _ _ _ T) as [I _].
  assert (D : databyte d = 0).
  { destruct I as (_ & _ & _ & _ & I & _). auto. }
  assert (F : field d = Some (cmd, Z.of_nat w - 1) /\ (1 <= w)%nat).
  { unfold Inv in I. destruct I as (_ & _ & _ & _ & _ & I).
    unfold field.
    destruct H as [(S & -> & ->) | [(S & -> & ->) | (S & -> & ->)]];
      rewrite S in *; [split; [reflexivity|lia] | | split; [reflexivity|lia]].
    destruct (cmdkey d) as [|[]]; try contradiction;
      split; simpl; try reflexivity; lia. }
  destruct F as (F & W). split.
  - intros n d' inp' L T'.
    assert (B0 : 0 <= bitcount d) by lia.
    assert (K0 : bitcount d + Z.of_nat n <= Z.of_nat w - 1) by lia.
    destruct (field_pending cmd (Z.of_nat w - 1) n d inp d' inp' F B0 K0 T')
      as (_ & S' & B' & _ & _ & E).
    split; [exact S'|]. split; [lia|exact E].
  - intros d' inp' T'. destruct w as [|w']; [lia|].
    assert (B0 : 0 <= bitcount d) by lia.
    assert (K0 : bitcount d + Z.of_nat w' = Z.of_nat (S w') - 1) by lia.
    destruct (field_complete cmd (Z.of_nat (S w') - 1) w' d inp d' inp' F
                B0 K0 T') as (L' & _ & _ & S' & E).
    rewrite D in E. split; [exact L'|]. split; [exact S'|exact E].
Qed.

Lemma X5_reachable_field_widths_witness :
  length (sampled 7 (after 7 shifted r0w_trace) (unread 7 shifted r0w_trace))
    = 7%nat /\
  state (after 14 shifted r0w_trace) = FIND_PARITY.
Proof.
  pose proof (X5_reachable_field_widths shifted r0w_trace 7
                (after 7 shifted r0w_trace) (unread 7 shifted r0w_trace)
                K_DATA 7) as H.
  assert (T : turns 7 (new_Decoder shifted) r0w_trace =
              Done tt (after 7 shifted r0w_trace)
                (unread 7 shifted r0w_trace))
    by (vm_compute; reflexivity).
  assert (B : bitcount (after 7 shifted r0w_trace) = 0)
    by (vm_compute; reflexivity).
  assert (S : state (after 7 shifted r0w_trace) = FIND_DATA /\
              K_DATA = K_DATA /\
              7%nat = (if CmdKey_eqb (cmdkey (after 7 shifted r0w_trace))
                            K_R0W then 7%nat else 8%nat))
    by (vm_compute; repeat split).
  destruct (H T B (or_intror (or_introl S))) as [_ H2].
  destruct (H2 (after 14 shifted r0w_trace) (unread 14 shifted r0w_trace))
    as (L' & S' & _).
  - vm_compute; reflexivity.
  - split; [exact L'|]. apply S'. vm_compute. discriminate.
Defined.

(** X6. Between two turns of any run: the address-repeat count and the
    byte count are 0 (no method assigns them another value on a reachable
    path), the park count never exceeds the parity count, which never
    exceeds 2, the states before the command is classified hold no command
    key, without a command key the counters are 0, and the accumulator is
    empty whenever the bit count is 0. *)
Theorem X6_transaction_context_bounds fmt inp0 n d inp :
  turns n (new_Decoder fmt) inp0 = Done tt d inp ->
  ADDcount d = 0 /\ BC d = 0 /\
  0 <= BPcount d <= Pcount d /\ Pcount d <= 2 /\ 0 <= bitcount d /\
  (state d = FIND_SSC \/ state d = FIND_SLAVE_ADDRESS \/
   state d = FIND_COMMAND -> cmdkey d = NULL) /\
  (cmdkey d = NULL -> Pcount d = 0 /\ BPcount d = 0) /\
  (bitcount d = 0 -> databyte d = 0).
Proof.
  intros T. destruct (reachable_Inv _ _ _ _ _ T) as [I _].
  unfold Inv in I. destruct I as (A & B & C & _ & D & I).
  split; [exact A|]. split; [exact B|].
  assert (G : 0 <= BPcount d <= Pcount d /\ Pcount d <= 2 /\
              (state d = FIND_SSC \/ state d = FIND_SLAVE_ADDRESS \/
               state d = FIND_COMMAND -> cmdkey d = NULL) /\
              (cmdkey d = NULL -> Pcount d = 0 /\ BPcount d = 0)).
  { destruct (state d), (cmdkey d) as [|[]]; try contradiction;
      (split; [lia|]); (split; [lia|]);
      (split; [intros [E | [E | E]]; try discriminate; reflexivity|]);
      intros E; try discriminate; lia. }
  destruct G as (G1 & G2 & G3 & G4).
  split; [exact G1|]. split; [exact G2|]. split; [exact C|].
  split; [exact G3|]. split; [exact G4|exact D].
Qed.

Lemma X6_transaction_context_bounds_witness :
  Pcount (after 24 shifted rw_trace) <= 2 /\
  0 <= BPcount (after 24 shifted rw_trace) <= Pcount (after 24 shifted rw_trace).
Proof.
  destruct (X6_transaction_context_bounds shifted rw_trace 24
              (after 24 shifted rw_trace) (unread 24 shifted rw_trace))
    as (_ & _ & A & B & _).
  - vm_compute; reflexivity.
  - split; [exact B|exact A].
Defined.

Lemma decode_keeps fuel : forall d inp,
  samplerate (outcome_decoder (decode fuel d inp)) = samplerate d /\
  address_format (outcome_decoder (decode fuel d inp)) = address_format d /\
  exists l, sink (outcome_decoder (decode fuel d inp)) = sink d ++ l.
Proof.
  induction fuel as [|fuel IH]; intros d inp; simpl.
  - repeat split. exists []. now rewrite app_nil_r.
  - pose proof (body_emits d inp) as (R & A & l & S & _).
    destruct (decode_body d inp) as [[] d1 inp1|d1|d1]; simpl in *.
    + destruct (IH d1 inp1) as (R' & A' & l' & S').
      split; [congruence|]. split; [congruence|].
      exists (l ++ l'). rewrite S', S, app_assoc. reflexivity.
    + split; [exact R|]. split; [exact A|]. exists l. exact S.
    + split; [exact R|]. split; [exact A|]. exists l. exact S.
Qed.

(** X7. From any decoder, one turn of the loop only appends to the
    annotations already emitted, and what it appends belongs to the state
    the turn started in: Slave Address only in FIND SLAVE ADDRESS, command
    annotations and the command warning only in FIND COMMAND, Byte Count
    only in FIND BTEY_COUNT, Address only in FIND ADDRESS, Data only in
    FIND DATA, Parity only in FIND PARITY, Bus Park only in FIND BUS_PARK,
    Sequence Start only in FIND SSC, SSC warnings only in FIND SSC and
    FIND BUS_PARK (Illegal Jump Edge in any of them).  The turn assigns
    neither the sample rate nor the option. *)
Theorem X7_annotations_by_state d inp :
  let d' := result_decoder (decode_body d inp) in
  samplerate d' = samplerate d /\ address_format d' = address_format d /\
  exists l, sink d' = sink d ++ l /\
            Forall (emits_only (may_emit (state d))) l.
Proof. exact (body_emits d inp). Qed.

(** X8. A completed turn in FIND SSC leaves the transaction context, the
    accumulator and [BPss] alone, and ends in one of three states: still
    in FIND SSC with nothing but Illegal Jump Edges emitted; in FIND
    BUS_PARK after an SSC warning of zero length, emitted first; or in
    FIND SLAVE ADDRESS after a Sequence-Start annotation, emitted last,
    that runs from [BPss] to the sample of the rising clock edge. *)
Theorem X8_sequence_start_turn d inp d' inp' :
  state d = FIND_SSC -> decode_body d inp = Done tt d' inp' ->
  transaction_ctx d' = transaction_ctx d /\ BPss d' = BPss d /\
  exists l, sink d' = sink d ++ l /\
    match state d' with
    | FIND_SSC => Forall is_IJE l
    | FIND_BUS_PARK =>
        exists x l', l = x :: l' /\ has_index K_SSC_WARNINGS x /\
                     ann_ss x = ann_es x /\ Forall is_IJE l'
    | FIND_SLAVE_ADDRESS =>
        exists l' x, l = l' ++ [x] /\ has_index K_SSC x /\
                     ann_ss x = BPss d /\ ann_es x = samplenum d' /\
                     matched_bit 1 d' = true
    | _ => False
    end.
Proof.
  intros S T. pose proof (SSC_turn d inp S) as P. rewrite T in P. exact P.
Qed.

Lemma X8_sequence_start_turn_witness :
  transaction_ctx (after 2 shifted rw_trace) =
    transaction_ctx (after 1 shifted rw_trace) /\
  BPss (after 2 shifted rw_trace) = BPss (after 1 shifted rw_trace).
Proof.
  destruct (X8_sequence_start_turn (after 1 shifted rw_trace)
              (unread 1 shifted rw_trace) (after 2 shifted rw_trace)
              (unread 2 shifted rw_trace)) as (A & B & _).
  - vm_compute; reflexivity.
  - vm_compute; reflexivity.
  - split; [exact A|exact B].
Defined.

(** X9. A completed turn in FIND BUS_PARK of a decoder that holds no
    command key (an idle bus) leaves the transaction context and the
    accumulator alone, stays in FIND BUS_PARK or moves to FIND SSC, and
    emits nothing but Illegal Jump Edges and SSC warnings: no Bus-Park
    annotation outside a transaction. *)
Theorem X9_idle_bus_park_turn d inp d' inp' :
  state d = FIND_BUS_PARK -> cmdkey d = NULL ->
  decode_body d inp = Done tt d' inp' ->
  transaction_ctx d' = transaction_ctx d /\
  (state d' = FIND_BUS_PARK \/ state d' = FIND_SSC) /\
  exists l, sink d' = sink d ++ l /\
            Forall (emits_only [K_IJE; K_SSC_WARNINGS]) l.
Proof.
  intros S K T. pose proof (idle_turn d inp S K) as P. rewrite T in P.
  exact P.
Qed.

Lemma X9_idle_bus_park_turn_witness :
  state (after 1 shifted rw_trace) = FIND_BUS_PARK \/
  state (after 1 shifted rw_trace) = FIND_SSC.
Proof.
  destruct (X9_idle_bus_park_turn (new_Decoder shifted) rw_trace
              (after 1 shifted rw_trace) (unread 1 shifted rw_trace))
    as (_ & A & _).
  - vm_compute; reflexivity.
  - vm_compute; reflexivity.
  - vm_compute; reflexivity.
  - exact A.
Defined.

(** X10. In every run, a completed turn in FIND PARITY counts one parity,
    emits the Parity annotation last and records its end sample in [Pes],
    keeps the command key, and moves on by command: Register 0 Write to
    FIND BUS_PARK; Register Write to FIND DATA after the first parity and
    to FIND BUS_PARK with park count 1 after the second; Register Read to
    FIND BUS_PARK with the park count set to the parity count. *)
Theorem X10_parity_turn fmt inp0 n d inp d' inp' :
  turns n (new_Decoder fmt) inp0 = Done tt d inp ->
  state d = FIND_PARITY -> decode_body d inp = Done tt d' inp' ->
  Pcount d' = Pcount d + 1 /\ Pes d' = samplenum d' /\
  cmdkey d' = cmdkey d /\
  (exists l x, sink d' = sink d ++ l ++ [x] /\ Forall is_IJE l /\
               has_index K_P x /\ ann_es x = Pes d') /\
  match cmdkey d with
  | Key K_R0W => state d' = FIND_BUS_PARK /\ BPcount d' = BPcount d
  | Key K_RW =>
      if Pcount d =? 0
      then state d' = FIND_DATA /\ BPcount d' = BPcount d
      else state d' = FIND_BUS_PARK /\ BPcount d' = 1
  | Key K_RR => state d' = FIND_BUS_PARK /\ BPcount d' = Pcount d'
  | _ => False
  end.
Proof.
  intros T S H. destruct (reachable_Inv _ _ _ _ _ T) as [I _].
  pose proof (parity_turn d inp I S) as P. rewrite H in P. exact P.
Qed.

Lemma X10_parity_turn_witness :
  Pcount (after 24 shifted rw_trace) = Pcount (after 23 shifted rw_trace) + 1
  /\ Pes (after 24 shifted rw_trace) = samplenum (after 24 shifted rw_trace).
Proof.
  destruct (X10_parity_turn shifted rw_trace 23
              (after 23 shifted rw_trace) (unread 23 shifted rw_trace)
              (after 24 shifted rw_trace) (unread 24 shifted rw_trace))
    as (A & B & _).
  - vm_compute; reflexivity.
  - vm_compute; reflexivity.
  - vm_compute; reflexivity.
  - split; [exact A|exact B].
Defined.

(** X11. A Register-Write frame on a clean bus, whatever its slave
    address, address, data and parity bits and whatever the sample
    numbers: the run stops re-armed (FIND SSC, no command key, counters at
    zero) and has emitted exactly Sequence Start, Slave Address (4 bits),
    Register Write, Address (5 bits), Parity, Data (8 bits), Parity and
    Bus Park, each field with the value of its bits and each interval from
    the sample of its first answer to that of its last; the Bus Park
    starts where the last parity ended. *)
Theorem X11_register_write_frame (fmt : AddressFormat) (t : nat -> Z)
  (s0 s1 s2 s3 a0 a1 a2 a3 a4 p1 d0 d1 d2 d3 d4 d5 d6 d7 p2 : bool) :
  exists d,
    (forall k,
       decode (26 + k) (new_Decoder fmt)
         (rw_frame t [s0; s1; s2; s3] [a0; a1; a2; a3; a4] p1
            [d0; d1; d2; d3; d4; d5; d6; d7] p2) = Stopped d) /\
    state d = FIND_SSC /\ cmdkey d = NULL /\ counters_zero d /\
    sink d =
      [plain_ann K_SSC (t 0%nat) (t 3%nat);
       field_ann K_SA 3 (t 4%nat) (t 11%nat) [s0; s1; s2; s3];
       plain_ann K_RW (t 12%nat) (t 17%nat);
       field_ann K_ADDRESS 4 (t 18%nat) (t 27%nat) [a0; a1; a2; a3; a4];
       field_ann K_P 0 (t 28%nat) (t 29%nat) [p1];
       field_ann K_DATA 7 (t 30%nat) (t 45%nat)
         [d0; d1; d2; d3; d4; d5; d6; d7];
       field_ann K_P 0 (t 46%nat) (t 47%nat) [p2];
       plain_ann K_BP (t 47%nat) (t 48%nat)].
Proof.
  eexists. split; [intros k; lazy -[Z.lor Z.b2z]; reflexivity|].
  lazy -[Z.lor Z.b2z]. repeat split.
Qed.

(** X12. A Register-Read frame on a clean bus, for all bits and sample
    numbers: the first Bus Park (park count 1) does not end the
    transaction, the data field and its parity follow, and the second Bus
    Park re-arms the decoder.  Exactly Sequence Start, Slave Address,
    Register Read, Address (5 bits), Parity, Bus Park, Data (8 bits),
    Parity and Bus Park are emitted. *)
Theorem X12_register_read_frame (fmt : AddressFormat) (t : nat -> Z)
  (s0 s1 s2 s3 a0 a1 a2 a3 a4 p1 d0 d1 d2 d3 d4 d5 d6 d7 p2 : bool) :
  exists d,
    (forall k,
       decode (27 + k) (new_Decoder fmt)
         (rr_frame t [s0; s1; s2; s3] [a0; a1; a2; a3; a4] p1
            [d0; d1; d2; d3; d4; d5; d6; d7] p2) = Stopped d) /\
    state d = FIND_SSC /\ cmdkey d = NULL /\ counters_zero d /\
    sink d =
      [plain_ann K_SSC (t 0%nat) (t 3%nat);
       field_ann K_SA 3 (t 4%nat) (t 11%nat) [s0; s1; s2; s3];
       plain_ann K_RR (t 12%nat) (t 17%nat);
       field_ann K_ADDRESS 4 (t 18%nat) (t 27%nat) [a0; a1; a2; a3; a4];
       field_ann K_P 0 (t 28%nat) (t 29%nat) [p1];
       plain_ann K_BP (t 29%nat) (t 30%nat);
       field_ann K_DATA 7 (t 31%nat) (t 46%nat)
         [d0; d1; d2; d3; d4; d5; d6; d7];
       field_ann K_P 0 (t 47%nat) (t 48%nat) [p2];
       plain_ann K_BP (t 48%nat) (t 49%nat)].
Proof.
  eexists. split; [intros k; lazy -[Z.lor Z.b2z]; reflexivity|].
  lazy -[Z.lor Z.b2z]. repeat split.
Qed.

(** X13. A Register-0-Write frame on a clean bus, for all bits and sample
    numbers: one command bit, then a data field of 7 bits, one parity and
    the Bus Park; no Address annotation. *)
Theorem X13_register_0_write_frame (fmt : AddressFormat) (t : nat -> Z)
  (s0 s1 s2 s3 d0 d1 d2 d3 d4 d5 d6 p : bool) :
  exists d,
    (forall k,
       decode (17 + k) (new_Decoder fmt)
         (r0w_frame t [s0; s1; s2; s3] [d0; d1; d2; d3; d4; d5; d6] p)
       = Stopped d) /\
    state d = FIND_SSC /\ cmdkey d = NULL /\ counters_zero d /\
    sink d =
      [plain_ann K_SSC (t 0%nat) (t 3%nat);
       field_ann K_SA 3 (t 4%nat) (t 11%nat) [s0; s1; s2; s3];
       plain_ann K_R0W (t 12%nat) (t 13%nat);
       field_ann K_DATA 6 (t 14%nat) (t 27%nat) [d0; d1; d2; d3; d4; d5; d6];
       field_ann K_P 0 (t 28%nat) (t 29%nat) [p];
       plain_ann K_BP (t 29%nat) (t 30%nat)].
Proof.
  eexists. split; [intros k; lazy -[Z.lor Z.b2z]; reflexivity|].
  lazy -[Z.lor Z.b2z]. repeat split.
Qed.

(** X14. The three tables of the class agree: the indices of [proto] are
    0 to 17 in the order of the table, [annotations] has an entry for each
    of them, and every index is listed in exactly one annotation row, the
    row of warnings for Command Warnings, SSC Warnings and Illegal Jump
    Edge and the command/data row for the others. *)
Theorem X14_tables_agree :
  map proto_0 proto_keys = map Z.of_nat (seq 0 18) /\
  length annotations = 18%nat /\
  (forall cmd, In cmd proto_keys) /\
  (forall cmd,
     rows_of (proto_0 cmd) =
     match cmd with
     | K_CMD_WARNINGS | K_SSC_WARNINGS | K_IJE => ["warnings"]
     | _ => ["command-data"]
     end).
Proof.
  split; [reflexivity|]. split; [reflexivity|]. split.
  - intros cmd. destruct cmd; simpl; tauto.
  - intros cmd. destruct cmd; reflexivity.
Qed.

(** X15. [metadata] stores the value only under the sample-rate key and
    changes nothing else, and a run assigns neither the sample rate nor
    the option and never drops an annotation: the decoder a run ends with
    still holds the rate the host reported, and its annotations extend
    those it started with. *)
Theorem X15_sample_rate_is_stored_and_kept (rate_key key value : Z)
  (d : Decoder) (fuel : nat) (inp : list Answer) :
  let d' := outcome_decoder (decode fuel (metadata rate_key key value d) inp)
  in
  samplerate d' = (if key =? rate_key then Some value else samplerate d) /\
  address_format d' = address_format d /\
  exists l, sink d' = sink d ++ l.
Proof.
  cbv zeta.
  destruct (decode_keeps fuel (metadata rate_key key value d) inp)
    as (R & A & l & S).
  rewrite R, A, S. unfold metadata.
  destruct (key =? rate_key); simpl; repeat split; exists l; reflexivity.
Qed.

Lemma chain_app l1 : forall k l2,
  chain k (l1 ++ l2) =
  match chain k l1 with
  | Some k' => chain k' l2
  | None => None
  end.
Proof.
  induction l1 as [|a l1 IH]; intros k l2; simpl; [reflexivity|].
  destruct (is_warning a); [apply IH|].
  destruct (follows k (ann_index a)); [apply IH|reflexivity].
Qed.

Lemma chain_IJE l : forall k, Forall is_IJE l -> chain k l = Some k.
Proof.
  induction l as [|a l IH]; intros k F; [reflexivity|].
  inversion F as [|? ? Ha Hl]; subst. simpl.
  unfold is_warning. rewrite Ha. simpl. now apply IH.
Qed.

Ltac chain_eval Hc :=
  rewrite ?chain_app, ?Hc;
  repeat match goal with
         | H : Forall is_IJE ?l |- context [chain ?k ?l] =>
             rewrite (chain_IJE l k H)
         end;
  lazy [chain is_warning follows key_of find proto_keys ann_index proto_0
        proto fst snd orb andb Z.eqb Pos.eqb].

Lemma body_order d inp : Inv d -> Ord d -> order_post (decode_body d inp).
Proof.
  intros HI (k & Hc & He).
  destruct d as [fmt rate ss0 es0 bc db st ext ck BC0 Pc BPc ADDc BPss0
                 SSCs0 Pes0 Dss m sn snk].
  unfold Inv in HI. unfold expected_last in He. simpl in HI, Hc, He.
  destruct st, ck as [|[]]; try (exfalso; tauto).
  all: try (destruct He as [He | He]).
  all: try (destruct (Pc =? 0) eqn:EP).
  all: subst k.
  all: unfold_code; unfold order_post, Ord, expected_last; crunch;
    bool_props; try (exfalso; lia).
  all: try (exfalso; intuition (try lia; try discriminate); fail).
  all: eexists; try split; chain_eval Hc; try reflexivity.
  all: repeat match goal with
         | |- context [?a =? ?b] => destruct (Z.eqb_spec a b)
         end; try reflexivity; try lia; auto.
Qed.

Lemma new_Decoder_Ord fmt : Ord (new_Decoder fmt).
Proof. exists None. split; [reflexivity|]. left. reflexivity. Qed.

Lemma decode_order fuel : forall d inp,
  Inv d -> Safe d -> Ord d ->
  exists k, chain None (sink (outcome_decoder (decode fuel d inp))) = Some k.
Proof.
  induction fuel as [|fuel IH]; intros d inp I S O; simpl.
  - destruct O as (k & Hc & _). exists k. exact Hc.
  - pose proof (body_Inv d inp I S) as B.
    pose proof (body_order d inp I O) as P.
    destruct (decode_body d inp) as [[] d1 inp1|d1|d1]; simpl in *.
    + destruct B as (I1 & S1 & _). now apply IH.
    + exact P.
    + contradiction.
Qed.

(** X16. In every run, warnings aside, the annotations come in frame
    order: the first is a Sequence Start; a Sequence Start is followed by
    a Slave Address, that by a command (Register 0 Write, Register Write
    or Register Read), Register Write and Register Read by an Address,
    Register 0 Write by Data, Address and Data by a Parity, a Parity by
    Data or a Bus Park, and a Bus Park by Data or by the next Sequence
    Start.  This holds wherever the run is observed, also when the samples
    end in the middle of a frame. *)
Theorem X16_annotations_come_in_frame_order fmt inp fuel :
  exists k,
    chain None (sink (outcome_decoder (decode fuel (new_Decoder fmt) inp)))
    = Some k.
Proof.
  destruct (new_Decoder_Inv fmt) as [I S].
  exact (decode_order fuel _ inp I S (new_Decoder_Ord fmt)).
Qed.

Lemma body_progress d inp : progress_post d inp (decode_body d inp).
Proof.
  destruct d as [fmt rate ss0 es0 bc db st ext ck BC0 Pc BPc ADDc BPss0
                 SSCs0 Pes0 Dss m sn snk].
  destruct st; unfold_code; unfold progress_post; crunch;
    try exact I; try lia; auto.
Qed.

(** X17. From any decoder, a completed turn has taken at least one answer
    from the sample source, except in the state named 'NULL', which no
    branch of the loop handles: there the turn changes nothing and takes
    nothing. *)
Theorem X17_every_turn_takes_an_answer d inp d' inp' :
  decode_body d inp = Done tt d' inp' ->
  match state d with
  | STATE_NULL => d' = d /\ inp' = inp
  | _ => (length inp' < length inp)%nat
  end.
Proof.
  intros H. pose proof (body_progress d inp) as P. rewrite H in P. exact P.
Qed.

Lemma X17_every_turn_takes_an_answer_witness :
  (length (unread 3 shifted rw_trace) < length (unread 2 shifted rw_trace))%nat.
Proof.
  apply (X17_every_turn_takes_an_answer (after 2 shifted rw_trace)
           (unread 2 shifted rw_trace) (after 3 shifted rw_trace)
           (unread 3 shifted rw_trace)).
  vm_compute; reflexivity.
Defined.
